(** * QR Sync Telegram bot: the webhook handler of [handler.js]

    A shallow embedding of the Lambda function that receives Telegram
    updates, suppresses duplicates through a marker kept in DynamoDB,
    routes text commands and photos, and answers through the bot client.

    The collaborators (DynamoDB document client, bot client, Jimp, jsQR,
    vcard-parser, the file system) are not part of the repository.  Each
    call to one of them is recorded in a log held by the world, and what
    it answers is given by a record of oracles, so every statement below
    quantifies over all behaviours of the collaborators. *)

From stdpp Require Import base option strings list gmap pretty.
From Stdlib Require Import ZArith Lia Ascii.

Local Open Scope Z_scope.

(** ** Data model *)

(** [TelegramBot.PhotoSize]. *)
Record PhotoSize := mkPhotoSize {
  file_id : string;
  width : Z;
  height : Z
}.

(** [TelegramBot.Chat], reduced to the field the handler reads. *)
Record Chat := mkChat { chat_id : Z }.

(** [TelegramBot.Message].  [text] and [photo] are optional properties:
    [None] is JavaScript's [undefined]. *)
Record Message := mkMessage {
  message_id : Z;
  chat : Chat;
  text : option string;
  photo : option (list PhotoSize)
}.

(** The parsed webhook body.  Updates that carry something else than a
    message (an edited message, a callback query) have no [message]. *)
Record Update := mkUpdate {
  update_id : Z;
  message_of : option Message
}.

(** The Lambda proxy event, reduced to its [body]. *)
Record Event := mkEvent { body : string }.

(** The Lambda proxy result. *)
Record Response := mkResponse {
  statusCode : Z;
  response_body : string
}.

(** [image.bitmap] of Jimp. *)
Record Bitmap := mkBitmap {
  bitmap_data : list Z;
  bitmap_width : Z;
  bitmap_height : Z
}.

(** What jsQR returns when it finds a code. *)
Record QRCode := mkQRCode { data : string }.

(** The [value] of an entry of a parsed vCard field: a string, or an
    array of strings when the text of the field holds a [,] or a [;]
    that is not escaped. *)
Inductive PropertyValue :=
| TextValue (s : string)
| ListValue (items : list string).

(** One entry of a parsed vCard field. *)
Record Property := mkProperty { value : PropertyValue }.

(** The third argument of [bot.sendMessage]. *)
Record SendMessageOptions := mkSendMessageOptions {
  parse_mode : option string;
  reply_to_message_id : option Z
}.

(** The fourth argument of [bot.sendContact]. *)
Record SendContactOptions := mkSendContactOptions {
  vcard_opt : string;
  contact_reply_to_message_id : Z
}.

(** The object [extractProperties] returns. *)
Record ContactProperties := mkContactProperties {
  name : string;
  telephone : string
}.

(** ** Collaborator calls and the world *)

Inductive Call :=
| DbGet (key : string)
| DbUpdate (key : string) (attr : string) (v : Z)
| SendMessage (chatId : Z) (message : string) (options : SendMessageOptions)
| SendContact (chatId : Z) (phone : string) (contact : string)
    (options : SendContactOptions)
| DownloadFile (fileId : string)
| JimpRead (path : string)
| JsQR (bitmap : Bitmap)
| UnlinkSync (path : string).

(** The state outside the handler: the DynamoDB table (items by their
    [id] key, each item a map of its numeric attributes), the files of
    [os.tmpdir()], and the log of collaborator calls, oldest first. *)
Record World := mkWorld {
  table : gmap string (gmap string Z);
  tmpdir : gset string;
  calls : list Call
}.

Inductive Exn :=
| SyntaxError
| TypeError
| Rejected (c : Call)
| ENOENT (path : string).

Inductive Result (A : Type) :=
| Ok (a : A)
| Throw (e : Exn).
Arguments Ok {A} a.
Arguments Throw {A} e.

(** An [async] function: it runs on a world and leaves a result and a
    world; a rejected promise is a [Throw]. *)
Definition M (A : Type) : Type := World -> Result A * World.

Definition ret {A} (a : A) : M A := fun w => (Ok a, w).

Definition throw {A} (e : Exn) : M A := fun w => (Throw e, w).

Definition bind {A B} (m : M A) (k : A -> M B) : M B :=
  fun w =>
    match m w with
    | (Ok a, w') => k a w'
    | (Throw e, w') => (Throw e, w')
    end.

(** [try { m } catch (error) { h error }]. *)
Definition try_catch {A} (m : M A) (h : Exn -> M A) : M A :=
  fun w =>
    match m w with
    | (Ok a, w') => (Ok a, w')
    | (Throw e, w') => h e w'
    end.

(** [try { m } finally { return r }]: the [return] of the [finally] block
    replaces whatever [m] completed with, a pending exception included. *)
Definition finally_return {A B} (m : M A) (r : B) : M B :=
  fun w => (Ok r, snd (m w)).

#[global] Instance M_ret : MRet M := @ret.
#[global] Instance M_bind : MBind M := fun A B k m => bind m k.

(** A synchronous computation completes with a value or throws. *)
#[global] Instance Result_ret : MRet Result := @Ok.
#[global] Instance Result_bind : MBind Result :=
  fun A B k r =>
    match r with
    | Ok a => k a
    | Throw e => Throw e
    end.

(** A synchronous computation inside an [async] function. *)
Definition sync {A} (r : Result A) : M A := fun w => (r, w).

Definition log (c : Call) : M unit :=
  fun w => (Ok tt, mkWorld (table w) (tmpdir w) (calls w ++ [c])).

Definition get_world : M World := fun w => (Ok w, w).

Definition set_table (t : gmap string (gmap string Z)) : M unit :=
  fun w => (Ok tt, mkWorld t (tmpdir w) (calls w)).

Definition set_tmpdir (d : gset string) : M unit :=
  fun w => (Ok tt, mkWorld (table w) d (calls w)).

(** What the collaborators answer.  Each oracle sees the world at the
    time of the call, the log included. *)
Record Collaborators := mkCollaborators {
  (** [JSON.parse]; [None] when it throws. *)
  JSON_parse : string -> option Update;
  (** [parseInt(process.env.MAX_PHOTO_SIZE)]; [None] is [NaN]. *)
  MAX_PHOTO_SIZE : option Z;
  db_get_resolves : World -> string -> bool;
  db_update_resolves : World -> string -> string -> Z -> bool;
  sendMessage_resolves : World -> Z -> string -> SendMessageOptions -> bool;
  sendContact_resolves :
    World -> Z -> string -> string -> SendContactOptions -> bool;
  (** The path the file was saved under, [None] when the download fails. *)
  downloadFile_path : World -> string -> option string;
  Jimp_bitmap : World -> string -> option Bitmap;
  jsQR_result : Bitmap -> option QRCode;
  vCard_parse : string -> gmap string (list Property)
}.

(** ** JavaScript operators the handler relies on *)

(** [a < b] where [a] may be [undefined]: the comparison is then false. *)
Definition js_lt (a : option Z) (b : Z) : bool :=
  match a with
  | Some x => bool_decide (x < b)
  | None => false
  end.

(** [a > b] where [b] may be [NaN]: the comparison is then false. *)
Definition js_gt (a : Z) (b : option Z) : bool :=
  match b with
  | Some y => bool_decide (a > y)
  | None => false
  end.

(** A number inside a template literal. *)
Definition number_toString (n : option Z) : string :=
  match n with
  | Some x => pretty x
  | None => "NaN"
  end.

(** [s || ''] on a string. *)
Definition or_blank (s : string) : string :=
  if bool_decide (s = "") then "" else s.

(** Truthiness of an optional string property. *)
Definition truthy_string (s : option string) : bool :=
  match s with
  | Some x => negb (bool_decide (x = ""))
  | None => false
  end.

(** Strings are held as the bytes of their UTF-8 encoding.
    [characters] splits a string into its characters, each with its code
    point and its bytes; a byte outside a well-formed sequence counts as
    the character of that code. *)
Definition continuation_byte (c : ascii) : option N :=
  let n := N_of_ascii c in
  if ((128 <=? n) && (n <? 192))%N then Some (n - 128)%N else None.

Fixpoint characters (s : string) : list (N * string) :=
  match s with
  | EmptyString => []
  | String a s1 =>
      let stray := (N_of_ascii a, String a EmptyString) :: characters s1 in
      let lead := N_of_ascii a in
      if (lead <? 194)%N then stray
      else
        match s1 with
        | String b s2 =>
            match continuation_byte b with
            | None => stray
            | Some y =>
                if (lead <? 224)%N then
                  (((lead - 192) * 64 + y)%N, String a (String b EmptyString))
                  :: characters s2
                else
                  match s2 with
                  | String c s3 =>
                      match continuation_byte c with
                      | None => stray
                      | Some z =>
                          let three := ((lead - 224) * 4096 + y * 64 + z)%N in
                          if ((lead <? 240) && (2048 <=? three))%N then
                            (three,
                             String a (String b (String c EmptyString)))
                            :: characters s3
                          else
                            match s3 with
                            | String d s4 =>
                                match continuation_byte d with
                                | None => stray
                                | Some t =>
                                    let four :=
                                      ((lead - 240) * 262144 + y * 4096
                                       + z * 64 + t)%N in
                                    if ((240 <=? lead) && (lead <? 245)
                                        && (65536 <=? four))%N
                                    then
                                      (four,
                                       String a (String b (String c
                                         (String d EmptyString))))
                                      :: characters s4
                                    else stray
                                end
                            | EmptyString => stray
                            end
                      end
                  | EmptyString => stray
                  end
            end
        | EmptyString => stray
        end
  end.

(** WhiteSpace and LineTerminator of ECMAScript, what
    [String.prototype.trim] removes: TAB, LF, VT, FF, CR, SP, NBSP,
    U+1680, U+2000 to U+200A, LS, PS, U+202F, U+205F, U+3000 and the
    byte order mark. *)
Definition is_white_space (code : N) : bool :=
  ((9 <=? code) && (code <=? 13) || (code =? 32) || (code =? 160)
   || (code =? 5760) || (8192 <=? code) && (code <=? 8202)
   || (code =? 8232) || (code =? 8233) || (code =? 8239) || (code =? 8287)
   || (code =? 12288) || (code =? 65279))%N.

Fixpoint drop_white_space (cs : list (N * string)) : list (N * string) :=
  match cs with
  | (code, bytes) :: rest =>
      if is_white_space code then drop_white_space rest else cs
  | [] => []
  end.

Definition of_characters (cs : list (N * string)) : string :=
  fold_right (fun c s => snd c +:+ s) EmptyString cs.

Definition trimStart (s : string) : string :=
  of_characters (drop_white_space (characters s)).

Definition trimEnd (s : string) : string :=
  of_characters (rev (drop_white_space (rev (characters s)))).

Definition trim (s : string) : string :=
  of_characters
    (rev (drop_white_space (rev (drop_white_space (characters s))))).

Definition startsWith (s prefix : string) : bool := String.prefix prefix s.

Definition newline : string := String (ascii_of_nat 10) EmptyString.

Definition double_quote : string := String (ascii_of_nat 34) EmptyString.

(** ** The handler *)

(** [const response = { statusCode: 200, body: JSON.stringify({ done: true }) }] *)
Definition response : Response :=
  mkResponse 200 ("{" +:+ double_quote +:+ "done" +:+ double_quote +:+ ":true}").

Definition latest_update_id : string := "latest_update_id".

Definition no_options : SendMessageOptions := mkSendMessageOptions None None.

Section Handler.
Context (env : Collaborators).

(** *** Collaborator calls *)

(** [db.get({ TableName, Key: { id: key } }).promise()], giving
    [result.Item]. *)
Definition db_get (key : string) : M (option (gmap string Z)) :=
  w ← get_world;
  log (DbGet key);;
  if db_get_resolves env w key then mret (table w !! key)
  else throw (Rejected (DbGet key)).

(** [db.update] with [UpdateExpression: 'SET #attr = :v']: DynamoDB sets
    the attribute on the item, creating the item when there is none. *)
Definition db_update (key attr : string) (v : Z) : M unit :=
  w ← get_world;
  log (DbUpdate key attr v);;
  if db_update_resolves env w key attr v
  then set_table (<[key := <[attr := v]> (default ∅ (table w !! key))]> (table w))
  else throw (Rejected (DbUpdate key attr v)).

Definition bot_sendMessage (chatId : Z) (msg : string)
    (options : SendMessageOptions) : M unit :=
  w ← get_world;
  log (SendMessage chatId msg options);;
  if sendMessage_resolves env w chatId msg options then mret tt
  else throw (Rejected (SendMessage chatId msg options)).

Definition bot_sendContact (chatId : Z) (phone contact : string)
    (options : SendContactOptions) : M unit :=
  w ← get_world;
  log (SendContact chatId phone contact options);;
  if sendContact_resolves env w chatId phone contact options then mret tt
  else throw (Rejected (SendContact chatId phone contact options)).

(** [bot.downloadFile(fileId, os.tmpdir())]: the file is written to the
    temporary directory and its path returned. *)
Definition bot_downloadFile (fileId : string) : M string :=
  w ← get_world;
  log (DownloadFile fileId);;
  match downloadFile_path env w fileId with
  | Some path => set_tmpdir ({[path]} ∪ tmpdir w);; mret path
  | None => throw (Rejected (DownloadFile fileId))
  end.

(** [Jimp.read(path)], giving [image.bitmap]. *)
Definition Jimp_read (path : string) : M Bitmap :=
  w ← get_world;
  log (JimpRead path);;
  match Jimp_bitmap env w path with
  | Some bitmap => mret bitmap
  | None => throw (Rejected (JimpRead path))
  end.

(** [jsQR(bitmap.data, bitmap.width, bitmap.height)]; [None] is [null]. *)
Definition jsQR (bitmap : Bitmap) : M (option QRCode) :=
  log (JsQR bitmap);;
  mret (jsQR_result env bitmap).

(** [fs.unlinkSync(path)]. *)
Definition fs_unlinkSync (path : string) : M unit :=
  w ← get_world;
  log (UnlinkSync path);;
  if bool_decide (path ∈ tmpdir w) then set_tmpdir (tmpdir w ∖ {[path]})
  else throw (ENOENT path).

(** *** Outbound messages *)

Definition sendErrorMessage (chatId : Z) : M unit :=
  let msg := "There was a problem with your request." in
  bot_sendMessage chatId msg no_options.

Definition sendMarkdownMessage (chatId : Z) (msg : string)
    (options : SendMessageOptions) : M unit :=
  bot_sendMessage chatId msg
    (mkSendMessageOptions (Some "Markdown") (reply_to_message_id options)).

Definition sendMarkdownReply (chatId messageId : Z) (msg : string) : M unit :=
  sendMarkdownMessage chatId msg (mkSendMessageOptions None (Some messageId)).

(** The [forEach] loops of [extractProperties]: the variable is
    overwritten by every entry whose trimmed value is not blank.  An
    entry whose value is an array has no [trim]: the call throws and the
    loop is left. *)
Fixpoint forEach_assign (entries : list Property) (current : string)
    : Result string :=
  match entries with
  | [] => Ok current
  | entry :: entries =>
      match value entry with
      | TextValue s =>
          forEach_assign entries
            (if bool_decide (trim s ≠ "") then s else current)
      | ListValue _ => Throw TypeError
      end
  end.

Definition extractProperties (vcard : string) : Result ContactProperties :=
  let card := vCard_parse env vcard in
  let name := "No name found" in
  let telephone := "123456789" in
  name ←
    match card !! "fn" with
    | Some fn => forEach_assign fn name
    | None => Ok name
    end;
  telephone ←
    match card !! "tel" with
    | Some tel => forEach_assign tel telephone
    | None => Ok telephone
    end;
  mret (mkContactProperties name telephone).

Definition sendContactReply (chatId messageId : Z) (vcard : string) : M unit :=
  properties ← sync (extractProperties vcard);
  bot_sendContact chatId (telephone properties) (name properties)
    (mkSendContactOptions vcard messageId).

(** *** The idempotency gate *)

(** Returns [false] when the update is new, after storing its id. *)
Definition checkAlreadyHandled (current : Z) : M bool :=
  item ← db_get latest_update_id;
  match item with
  | None => throw TypeError
  | Some item =>
      let latest := item !! latest_update_id in
      if js_lt latest current then
        db_update latest_update_id latest_update_id current;;
        mret false
      else mret true
  end.

(** *** Text commands *)

Definition startMessage : string :=
  "Hi, I'm QR Sync Bot! I can decode your QR codes.".

Definition aboutMessage : string :=
  "I was created by @emilioschepis. You can find my code on [GitHub](https://github.com/emilioschepis/qr-sync-telegram-bot).".

Definition appMessage : string :=
  "Are you on Android? Download the [QR Sync app](https://play.google.com/store/apps/details?id=com.emilioschepis.qrsync)!"
  +:+ "      " +:+ newline
  +:+ "It is completely free and [open source](https://github.com/emilioschepis/qrsync)."
  +:+ "      " +:+ newline
  +:+ "You'll be able to scan a wide variety of codes keeping them synced in the cloud.".

Definition handleTextMessage (msg : Message) : M unit :=
  match text msg with
  | Some "/start" => sendMarkdownMessage (chat_id (chat msg)) startMessage no_options
  | Some "/about" => sendMarkdownMessage (chat_id (chat msg)) aboutMessage no_options
  | Some "/app" => sendMarkdownMessage (chat_id (chat msg)) appMessage no_options
  | _ => mret tt
  end.

(** *** Photos *)

Definition decodeBitmap (bitmap : Bitmap) : M string :=
  result ← jsQR bitmap;
  match result with
  | Some code => mret (or_blank (data code))
  | None => throw TypeError
  end.

Definition decodePhoto (photo : PhotoSize) : M string :=
  path ← bot_downloadFile (file_id photo);
  bitmap ← Jimp_read path;
  result ← decodeBitmap bitmap;
  fs_unlinkSync path;;
  mret result.

Definition sizeLimitMessage (sizeLimit : option Z) : string :=
  "I'm sorry, I will only decode images up to "
  +:+ number_toString sizeLimit +:+ "x" +:+ number_toString sizeLimit +:+ ".".

Definition decodingMessage : string :=
  "Give me a second, I'm decoding your photo...".

Definition emptyMessage : string :=
  "The code you sent could not be decoded.".

Definition contactDoneMessage : string :=
  "*I decoded your QR code!*" +:+ newline +:+ "Here's the contact it contains:".

Definition textDoneMessage : string :=
  "*I decoded your QR code!*" +:+ newline +:+ "Here's the text it contains:".

(** The last statement of [handlePhotoMessage]: the branch on the decoded
    [data]. *)
Definition replyDecoded (msg : Message) (data : string) : M unit :=
  if bool_decide (data = "") then
    sendMarkdownReply (chat_id (chat msg)) (message_id msg) emptyMessage
  else if startsWith data "BEGIN:VCARD" then
    sendMarkdownMessage (chat_id (chat msg)) contactDoneMessage no_options;;
    sendContactReply (chat_id (chat msg)) (message_id msg) data
  else
    sendMarkdownMessage (chat_id (chat msg)) textDoneMessage no_options;;
    sendMarkdownReply (chat_id (chat msg)) (message_id msg) data.

(** [message.photo[message.photo.length - 1]]; reading a property of the
    outcome throws when [photo] is undefined or empty. *)
Definition last_photo (msg : Message) : option PhotoSize :=
  photo msg ≫= last.

Definition handlePhotoMessage (msg : Message) : M unit :=
  match last_photo msg with
  | None => throw TypeError
  | Some photo =>
      let sizeLimit := MAX_PHOTO_SIZE env in
      if js_gt (width photo) sizeLimit || js_gt (height photo) sizeLimit then
        sendMarkdownMessage (chat_id (chat msg)) (sizeLimitMessage sizeLimit)
          no_options
      else
        sendMarkdownMessage (chat_id (chat msg)) decodingMessage no_options;;
        data ← decodePhoto photo;
        replyDecoded msg data
  end.

(** *** Routing and the exported function *)

Definition handleIncomingMessage (msg : Message) : M unit :=
  if truthy_string (text msg) then handleTextMessage msg
  else if match photo msg with
          | Some sizes => (0 <? length sizes)%nat
          | None => false
          end
  then handlePhotoMessage msg
  else mret tt.

(** [module.exports.message].  The body is parsed and the chat id read
    before the [try] statement is entered. *)
Definition message (event : Event) : M Response :=
  match JSON_parse env (body event) with
  | None => throw SyntaxError
  | Some body =>
      match message_of body with
      | None => throw TypeError
      | Some msg =>
          let chatId := chat_id (chat msg) in
          finally_return
            (try_catch
               (handled ← checkAlreadyHandled (update_id body);
                if handled : bool then sendErrorMessage chatId
                else handleIncomingMessage msg)
               (fun error => sendErrorMessage chatId))
            response
      end
  end.

End Handler.

(** ** The earlier variant of the handler

    The second source file of the repository is the handler before the
    duplicate check was added.  Its router, its replies and
    [extractProperties] are those above; [decodePhoto] calls jsQR itself
    and reads [result.data] only after the file has been removed. *)
Module Part000.
Section Handler.
Context (env : Collaborators).

Definition decodePhoto (photo : PhotoSize) : M string :=
  path ← bot_downloadFile env (file_id photo);
  bitmap ← Jimp_read env path;
  result ← jsQR env bitmap;
  fs_unlinkSync path;;
  match result with
  | Some code => mret (or_blank (data code))
  | None => throw TypeError
  end.

(** The commands of the earlier variant: there is no [/app] yet. *)
Definition handleTextMessage (msg : Message) : M unit :=
  match text msg with
  | Some "/start" =>
      sendMarkdownMessage env (chat_id (chat msg)) startMessage no_options
  | Some "/about" =>
      sendMarkdownMessage env (chat_id (chat msg)) aboutMessage no_options
  | _ => mret tt
  end.

Definition handlePhotoMessage (msg : Message) : M unit :=
  match last_photo msg with
  | None => throw TypeError
  | Some photo =>
      let sizeLimit := MAX_PHOTO_SIZE env in
      if js_gt (width photo) sizeLimit || js_gt (height photo) sizeLimit then
        sendMarkdownMessage env (chat_id (chat msg))
          (sizeLimitMessage sizeLimit) no_options
      else
        sendMarkdownMessage env (chat_id (chat msg)) decodingMessage
          no_options;;
        data ← decodePhoto photo;
        replyDecoded env msg data
  end.

Definition handleIncomingMessage (msg : Message) : M unit :=
  if truthy_string (text msg) then handleTextMessage msg
  else if match photo msg with
          | Some sizes => (0 <? length sizes)%nat
          | None => false
          end
  then handlePhotoMessage msg
  else mret tt.

(** [JSON.stringify({ input: event })], the body of the response. *)
Context (JSON_stringify_input : Event -> string).

(** [module.exports.message] of the earlier variant: no duplicate check,
    and a response that echoes the event. *)
Definition message (event : Event) : M Response :=
  match JSON_parse env (body event) with
  | None => throw SyntaxError
  | Some body =>
      match message_of body with
      | None => throw TypeError
      | Some msg =>
          let chatId := chat_id (chat msg) in
          finally_return
            (try_catch (handleIncomingMessage msg)
               (fun error => sendErrorMessage env chatId))
            (mkResponse 200 (JSON_stringify_input event))
      end
  end.

End Handler.
End Part000.

(** ** Vocabulary of the statements *)

(** The value of the dedup marker, when the record and its attribute
    exist. *)
Definition marker (w : World) : option Z :=
  table w !! latest_update_id ≫= (.!! latest_update_id).

(** The marker store answers every request. *)
Definition store_resolves (env : Collaborators) : Prop :=
  (forall w key, db_get_resolves env w key = true) /\
  (forall w key attr v, db_update_resolves env w key attr v = true).

(** The bot client delivers every message and contact. *)
Definition bot_resolves (env : Collaborators) : Prop :=
  (forall w chatId msg options,
      sendMessage_resolves env w chatId msg options = true) /\
  (forall w chatId phone contact options,
      sendContact_resolves env w chatId phone contact options = true).

(** The options of a markdown message that replies to nothing. *)
Definition markdown : SendMessageOptions :=
  mkSendMessageOptions (Some "Markdown") None.

(** The options of a markdown message sent as a reply. *)
Definition markdown_reply (messageId : Z) : SendMessageOptions :=
  mkSendMessageOptions (Some "Markdown") (Some messageId).

(** The calls that fetch or decode a photo. *)
Definition is_decode_step (c : Call) : bool :=
  match c with
  | DownloadFile _ | JimpRead _ | JsQR _ => true
  | _ => false
  end.

(** As the specification words the extractor: the last non-blank value
    among the entries of a field, a placeholder when the field is absent
    or all its entries are blank. *)
Definition last_non_blank (field : option (list string))
    (placeholder : string) : string :=
  match field with
  | Some values =>
      default placeholder (last (filter (fun v => trim v ≠ "") values))
  | None => placeholder
  end.

(** The entries of a field whose values are all strings. *)
Definition text_entries (values : list string) : list Property :=
  (fun v => mkProperty (TextValue v)) <$> values.

(** The text of [sendErrorMessage]. *)
Definition errorMessage : string := "There was a problem with your request.".

(** The replies of the text handler to a text: one for a command, none
    for anything else. *)
Definition command_replies (t : string) : list string :=
  if bool_decide (t = "/start") then [startMessage]
  else if bool_decide (t = "/about") then [aboutMessage]
  else if bool_decide (t = "/app") then [appMessage]
  else [].

(** The calls open to the handlers of a message of chat [chatId]:
    markdown messages and contacts to that chat, and the steps of the
    decoding; no request to the marker store. *)
Definition handler_call (chatId : Z) (c : Call) : bool :=
  match c with
  | SendMessage to _ options =>
      bool_decide (to = chatId)
      && bool_decide (parse_mode options = Some "Markdown")
  | SendContact to _ _ _ => bool_decide (to = chatId)
  | DownloadFile _ | JimpRead _ | JsQR _ | UnlinkSync _ => true
  | DbGet _ | DbUpdate _ _ _ => false
  end.

(** An action that leaves the table alone and only adds calls that
    satisfy [P] to the log. *)
Definition confined {A} (P : Call -> bool) (m : M A) : Prop :=
  forall w,
    table (snd (m w)) = table w /\
    exists new, calls (snd (m w)) = calls w ++ new /\ forallb P new = true.

(** The calls open to an invocation for a message of chat [chatId]:
    requests to the store for the marker record only, messages and
    contacts to that chat only, and the steps of the decoding. *)
Definition invocation_call (chatId : Z) (c : Call) : bool :=
  match c with
  | DbGet key => bool_decide (key = latest_update_id)
  | DbUpdate key attr _ =>
      bool_decide (key = latest_update_id)
      && bool_decide (attr = latest_update_id)
  | SendMessage to _ _ | SendContact to _ _ _ => bool_decide (to = chatId)
  | DownloadFile _ | JimpRead _ | JsQR _ | UnlinkSync _ => true
  end.

(** The same without the store: the calls open to an invocation of the
    earlier variant. *)
Definition storeless_call (chatId : Z) (c : Call) : bool :=
  match c with
  | DbGet _ | DbUpdate _ _ _ => false
  | _ => invocation_call chatId c
  end.

(** The replies of the earlier text handler. *)
Definition early_command_replies (t : string) : list string :=
  if bool_decide (t = "/app") then [] else command_replies t.

(** ** Concrete collaborators and inputs *)

Definition quoted (s : string) : string :=
  double_quote +:+ s +:+ double_quote.

(** A [/start] command, update 101 of chat 7. *)
Definition start_update : Update :=
  mkUpdate 101 (Some (mkMessage 5 (mkChat 7) (Some "/start") None)).

Definition start_body : string :=
  "{" +:+ quoted "update_id" +:+ ":101," +:+ quoted "message" +:+ ":{"
  +:+ quoted "message_id" +:+ ":5," +:+ quoted "chat" +:+ ":{"
  +:+ quoted "id" +:+ ":7}," +:+ quoted "text" +:+ ":" +:+ quoted "/start"
  +:+ "}}".

Definition small_size : PhotoSize := mkPhotoSize "small" 90 90.
Definition large_size : PhotoSize := mkPhotoSize "large" 640 480.
Definition huge_size : PhotoSize := mkPhotoSize "huge" 2000 1500.

Definition photo_message : Message :=
  mkMessage 6 (mkChat 7) None (Some [small_size; large_size]).

Definition huge_photo_message : Message :=
  mkMessage 8 (mkChat 7) None (Some [small_size; huge_size]).

(** A message with a caption-less photo and a text at once. *)
Definition text_and_photo_message : Message :=
  mkMessage 9 (mkChat 7) (Some "/about") (Some [small_size; large_size]).

(** A photo, update 102 of chat 7. *)
Definition photo_update : Update := mkUpdate 102 (Some photo_message).

Definition photo_size_json (p : PhotoSize) : string :=
  "{" +:+ quoted "file_id" +:+ ":" +:+ quoted (file_id p) +:+ ","
  +:+ quoted "width" +:+ ":" +:+ pretty (width p) +:+ ","
  +:+ quoted "height" +:+ ":" +:+ pretty (height p) +:+ "}".

Definition photo_body : string :=
  "{" +:+ quoted "update_id" +:+ ":102," +:+ quoted "message" +:+ ":{"
  +:+ quoted "message_id" +:+ ":6," +:+ quoted "chat" +:+ ":{"
  +:+ quoted "id" +:+ ":7}," +:+ quoted "photo" +:+ ":["
  +:+ photo_size_json small_size +:+ "," +:+ photo_size_json large_size
  +:+ "]}}".

(** An edited message, update 103: the body has no [message] property. *)
Definition edited_update : Update := mkUpdate 103 None.

Definition edited_body : string :=
  "{" +:+ quoted "update_id" +:+ ":103," +:+ quoted "edited_message" +:+ ":{"
  +:+ quoted "message_id" +:+ ":5," +:+ quoted "chat" +:+ ":{"
  +:+ quoted "id" +:+ ":7}," +:+ quoted "text" +:+ ":" +:+ quoted "/about"
  +:+ "}}".

(** A body that is not JSON. *)
Definition malformed_body : string := "{".

Definition known_bodies : gmap string Update :=
  list_to_map
    [(start_body, start_update); (photo_body, photo_update);
     (edited_body, edited_update)].

(** Collaborators that answer every request: the three bodies above parse
    to their updates and nothing else parses, the size limit is 1280, and
    the download, the image reader, jsQR and the vCard parser give what
    the arguments say. *)
Definition collaborators (path : option string) (bitmap : option Bitmap)
    (code : option QRCode) (card : gmap string (list Property))
    : Collaborators :=
  {| JSON_parse := fun s => known_bodies !! s;
     MAX_PHOTO_SIZE := Some 1280;
     db_get_resolves := fun _ _ => true;
     db_update_resolves := fun _ _ _ _ => true;
     sendMessage_resolves := fun _ _ _ _ => true;
     sendContact_resolves := fun _ _ _ _ _ => true;
     downloadFile_path := fun _ _ => path;
     Jimp_bitmap := fun _ _ => bitmap;
     jsQR_result := fun _ => code;
     vCard_parse := fun _ => card |}.

Definition some_bitmap : Bitmap := mkBitmap [0; 0; 0; 255] 1 1.

Definition tmp_path : string := "/tmp/file_0.jpg".

(** The photo downloads and reads, and jsQR gives [code]. *)
Definition decoding (code : option QRCode) : Collaborators :=
  collaborators (Some tmp_path) (Some some_bitmap) code ∅.

(** The photo downloads, but Jimp cannot read it. *)
Definition unreadable : Collaborators :=
  collaborators (Some tmp_path) None None ∅.

(** A contact payload and what the parser makes of it. *)
Definition contact_text : string :=
  "BEGIN:VCARD" +:+ newline +:+ "VERSION:3.0" +:+ newline
  +:+ "FN:Ada Lovelace" +:+ newline +:+ "TEL:+44 20 7946 0000" +:+ newline
  +:+ "END:VCARD".

Definition contact_card : gmap string (list Property) :=
  {["fn" := text_entries ["Ada Lovelace"];
    "tel" := text_entries ["+44 20 7946 0000"]]}.

(** The photo holds the contact above. *)
Definition decoding_contact : Collaborators :=
  collaborators (Some tmp_path) (Some some_bitmap)
    (Some (mkQRCode contact_text)) contact_card.

Definition world_with_marker (n : Z) : World :=
  mkWorld {[latest_update_id := {[latest_update_id := n]}]} ∅ [].

(** The world once the photo of update 102 has been fetched, decoded and
    removed again. *)
Definition world_after_decoding : World :=
  mkWorld (table (world_with_marker 102)) ∅
    [SendMessage 7 decodingMessage markdown;
     DownloadFile "large"; JimpRead tmp_path; JsQR some_bitmap;
     UnlinkSync tmp_path].

(** A table in which the marker record was never created. *)
Definition world_without_marker : World := mkWorld ∅ ∅ [].

(** A bot client that rejects every request; everything else as in
    [decoding None]. *)
Definition rejecting_bot : Collaborators :=
  {| JSON_parse := fun s => known_bodies !! s;
     MAX_PHOTO_SIZE := Some 1280;
     db_get_resolves := fun _ _ => true;
     db_update_resolves := fun _ _ _ _ => true;
     sendMessage_resolves := fun _ _ _ _ => false;
     sendContact_resolves := fun _ _ _ _ _ => false;
     downloadFile_path := fun _ _ => Some tmp_path;
     Jimp_bitmap := fun _ _ => Some some_bitmap;
     jsQR_result := fun _ => None;
     vCard_parse := fun _ => ∅ |}.

(** A marker store that reads but rejects every update. *)
Definition read_only_store : Collaborators :=
  {| JSON_parse := fun s => known_bodies !! s;
     MAX_PHOTO_SIZE := Some 1280;
     db_get_resolves := fun _ _ => true;
     db_update_resolves := fun _ _ _ _ => false;
     sendMessage_resolves := fun _ _ _ _ => true;
     sendContact_resolves := fun _ _ _ _ _ => true;
     downloadFile_path := fun _ _ => Some tmp_path;
     Jimp_bitmap := fun _ _ => Some some_bitmap;
     jsQR_result := fun _ => None;
     vCard_parse := fun _ => ∅ |}.

(** No size limit in the environment: [parseInt(undefined)] is [NaN]. *)
Definition unconfigured : Collaborators :=
  {| JSON_parse := fun s => known_bodies !! s;
     MAX_PHOTO_SIZE := None;
     db_get_resolves := fun _ _ => true;
     db_update_resolves := fun _ _ _ _ => true;
     sendMessage_resolves := fun _ _ _ _ => true;
     sendContact_resolves := fun _ _ _ _ _ => true;
     downloadFile_path := fun _ _ => Some tmp_path;
     Jimp_bitmap := fun _ _ => Some some_bitmap;
     jsQR_result := fun _ => Some (mkQRCode "hello");
     vCard_parse := fun _ => ∅ |}.

(** The marker record exists but has no [latest_update_id] attribute. *)
Definition world_with_bare_record : World :=
  mkWorld {[latest_update_id := ∅]} ∅ [].

(** A text that only resembles a command. *)
Definition shouting_message : Message :=
  mkMessage 10 (mkChat 7) (Some "/START") None.

(** A message with neither a text nor a photo, a sticker for one. *)
Definition sticker_message : Message := mkMessage 11 (mkChat 7) None None.

(** A photo with an empty caption-like text. *)
Definition empty_text_photo_message : Message :=
  mkMessage 12 (mkChat 7) (Some "") (Some [small_size; large_size]).

(** A photo whose last size is exactly the limit of 1280. *)
Definition limit_size : PhotoSize := mkPhotoSize "limit" 1280 1280.

Definition limit_photo_message : Message :=
  mkMessage 13 (mkChat 7) None (Some [small_size; limit_size]).

(** A temporary directory that already holds a file. *)
Definition world_with_other_file : World :=
  mkWorld ∅ {["/tmp/other.jpg"]} [].

(** The command that only the current variant knows. *)
Definition app_message : Message := mkMessage 14 (mkChat 7) (Some "/app") None.

(** A contact whose formatted name holds a [;] that is not escaped, and
    what the parser makes of it: the value of the entry is an array. *)
Definition list_contact_text : string :=
  "BEGIN:VCARD" +:+ newline +:+ "VERSION:3.0" +:+ newline
  +:+ "FN:Doe;John" +:+ newline +:+ "TEL:+1 555 0100" +:+ newline
  +:+ "END:VCARD".

Definition list_contact_card : gmap string (list Property) :=
  {["fn" := [mkProperty (ListValue ["Doe"; "John"])];
    "tel" := text_entries ["+1 555 0100"]]}.

(** The photo holds that contact. *)
Definition decoding_list_contact : Collaborators :=
  collaborators (Some tmp_path) (Some some_bitmap)
    (Some (mkQRCode list_contact_text)) list_contact_card.

(** A card whose telephone holds the array. *)
Definition list_telephone_card : gmap string (list Property) :=
  {["fn" := text_entries ["Ada Lovelace"];
    "tel" := [mkProperty (TextValue "+44 20 7946 0000");
              mkProperty (ListValue ["+44 20"; "7946 0001"])]]}.

(** Whether every entry of a field, when there is one, has a string for
    its value. *)
Definition all_text (field : option (list Property)) : bool :=
  match field with
  | Some entries =>
      forallb
        (fun entry =>
           match value entry with
           | TextValue _ => true
           | ListValue _ => false
           end)
        entries
  | None => true
  end.

(** ** Proof support *)

Ltac unfold_js :=
  unfold mbind, M_bind, mret, M_ret, bind, ret, throw, log, get_world,
    set_table, set_tmpdir, try_catch, finally_return in *.

Ltac run_js := repeat (unfold_js; cbn [fst snd table tmpdir calls] in *).

Lemma bind_run {A B} (m : M A) (k : A -> M B) w :
  (m ≫= k) w =
    match m w with
    | (Ok a, w') => k a w'
    | (Throw e, w') => (Throw e, w')
    end.
Proof. reflexivity. Qed.

Lemma bot_sendMessage_run env chatId msg options w :
  bot_sendMessage env chatId msg options w =
    (if sendMessage_resolves env w chatId msg options then Ok tt
     else Throw (Rejected (SendMessage chatId msg options)),
     mkWorld (table w) (tmpdir w)
       (calls w ++ [SendMessage chatId msg options])).
Proof.
  unfold bot_sendMessage. run_js.
  by destruct (sendMessage_resolves env w chatId msg options).
Qed.

Lemma bot_sendContact_run env chatId phone contact options w :
  bot_sendContact env chatId phone contact options w =
    (if sendContact_resolves env w chatId phone contact options then Ok tt
     else Throw (Rejected (SendContact chatId phone contact options)),
     mkWorld (table w) (tmpdir w)
       (calls w ++ [SendContact chatId phone contact options])).
Proof.
  unfold bot_sendContact. run_js.
  by destruct (sendContact_resolves env w chatId phone contact options).
Qed.

(** ** The idempotency gate *)

Lemma checkAlreadyHandled_new env w item current :
  table w !! latest_update_id = Some item ->
  js_lt (item !! latest_update_id) current = true ->
  db_get_resolves env w latest_update_id = true ->
  db_update_resolves env
    (mkWorld (table w) (tmpdir w) (calls w ++ [DbGet latest_update_id]))
    latest_update_id latest_update_id current = true ->
  checkAlreadyHandled env current w =
    (Ok false,
     mkWorld
       (<[latest_update_id := <[latest_update_id := current]> item]> (table w))
       (tmpdir w)
       (calls w ++ [DbGet latest_update_id]
          ++ [DbUpdate latest_update_id latest_update_id current])).
Proof.
  intros Hitem Hlt Hget Hupd.
  unfold checkAlreadyHandled, db_get, db_update. run_js.
  rewrite Hget. run_js. rewrite Hitem, Hlt. run_js.
  rewrite Hupd. run_js. rewrite Hitem. cbn. by rewrite <- app_assoc.
Qed.

Lemma checkAlreadyHandled_old env w item current :
  table w !! latest_update_id = Some item ->
  js_lt (item !! latest_update_id) current = false ->
  db_get_resolves env w latest_update_id = true ->
  checkAlreadyHandled env current w =
    (Ok true,
     mkWorld (table w) (tmpdir w) (calls w ++ [DbGet latest_update_id])).
Proof.
  intros Hitem Hlt Hget.
  unfold checkAlreadyHandled, db_get. run_js.
  rewrite Hget. run_js. by rewrite Hitem, Hlt.
Qed.

Lemma checkAlreadyHandled_no_record env w current :
  table w !! latest_update_id = None ->
  db_get_resolves env w latest_update_id = true ->
  checkAlreadyHandled env current w =
    (Throw TypeError,
     mkWorld (table w) (tmpdir w) (calls w ++ [DbGet latest_update_id])).
Proof.
  intros Hitem Hget.
  unfold checkAlreadyHandled, db_get. run_js.
  rewrite Hget. run_js. by rewrite Hitem.
Qed.


Lemma marker_Some w latest :
  marker w = Some latest ->
  exists item,
    table w !! latest_update_id = Some item /\
    item !! latest_update_id = Some latest.
Proof.
  unfold marker. destruct (table w !! latest_update_id) as [item|] eqn:E;
    cbn; [eauto | discriminate].
Qed.

(** C2: with the marker store answering, an id strictly greater than the
    stored marker makes the gate store that id and report the update as
    new ([false]); any other id makes it report a skip ([true]) and leaves
    the table, hence the marker, as it was. *)
Theorem checkAlreadyHandled_gate env w latest current :
  store_resolves env ->
  marker w = Some latest ->
  (latest < current ->
   fst (checkAlreadyHandled env current w) = Ok false /\
   marker (snd (checkAlreadyHandled env current w)) = Some current) /\
  (current <= latest ->
   fst (checkAlreadyHandled env current w) = Ok true /\
   table (snd (checkAlreadyHandled env current w)) = table w /\
   marker (snd (checkAlreadyHandled env current w)) = Some latest).
Proof.
  intros [Hget Hupd] Hmarker.
  destruct (marker_Some _ _ Hmarker) as (item & Hitem & Hlatest).
  split; intros Hcmp.
  - rewrite (checkAlreadyHandled_new env w item current); auto.
    + split; [done |]. unfold marker. cbn.
      rewrite lookup_insert_eq. cbn. apply lookup_insert_eq.
    + rewrite Hlatest. cbn. by apply bool_decide_eq_true.
  - rewrite (checkAlreadyHandled_old env w item current); auto.
    rewrite Hlatest. cbn. apply bool_decide_eq_false. lia.
Qed.

Lemma checkAlreadyHandled_gate_witness :
  store_resolves (decoding None) /\
  marker (world_with_marker 100) = Some 100 /\
  (fst (checkAlreadyHandled (decoding None) 101 (world_with_marker 100))
     = Ok false /\
   marker (snd (checkAlreadyHandled (decoding None) 101 (world_with_marker 100)))
     = Some 101) /\
  (fst (checkAlreadyHandled (decoding None) 100 (world_with_marker 100))
     = Ok true /\
   table (snd (checkAlreadyHandled (decoding None) 100 (world_with_marker 100)))
     = table (world_with_marker 100) /\
   marker (snd (checkAlreadyHandled (decoding None) 100 (world_with_marker 100)))
     = Some 100).
Proof.
  split; [by split |]. split; [reflexivity |]. split.
  - apply (checkAlreadyHandled_gate (decoding None) (world_with_marker 100)
             100 101); [by split | reflexivity | lia].
  - apply (checkAlreadyHandled_gate (decoding None) (world_with_marker 100)
             100 100); [by split | reflexivity | lia].
Defined.

(** C1: an update whose id equals the stored marker is recognised as
    already handled, and the handler then sends the generic error message
    to the chat: the redelivery of update 101 leaves one outbound message
    in the log. *)
Lemma duplicate_update_sends_error_message :
  checkAlreadyHandled (decoding None) 101 (world_with_marker 101)
    = (Ok true,
       mkWorld (table (world_with_marker 101)) ∅ [DbGet latest_update_id]) /\
  message (decoding None) (mkEvent start_body) (world_with_marker 101)
    = (Ok response,
       mkWorld (table (world_with_marker 101)) ∅
         [DbGet latest_update_id;
          SendMessage 7 "There was a problem with your request." no_options]).
Proof. split; reflexivity. Qed.

(** C3: with no marker record in the table the gate throws on reading the
    attribute of the missing item; the table stays empty, the [/start]
    command is not answered and the chat receives the generic error
    message. *)
Lemma missing_marker_record_throws :
  checkAlreadyHandled (decoding None) 101 world_without_marker
    = (Throw TypeError, mkWorld ∅ ∅ [DbGet latest_update_id]) /\
  message (decoding None) (mkEvent start_body) world_without_marker
    = (Ok response,
       mkWorld ∅ ∅
         [DbGet latest_update_id;
          SendMessage 7 "There was a problem with your request." no_options]).
Proof. split; reflexivity. Qed.

(** ** The exported function *)

(** X25: when the body parses and carries a message, the handler
    returns the fixed response, status 200 with the small JSON
    acknowledgement, whatever the gate, the router and the collaborators
    do; when the guarded block throws, the one thing done about it is
    the generic error message sent to the chat. *)
Theorem message_returns_response env event w update msg :
  JSON_parse env (body event) = Some update ->
  message_of update = Some msg ->
  fst (message env event w) = Ok response /\
  statusCode response = 200 /\
  match
    (handled ← checkAlreadyHandled env (update_id update);
     if handled : bool then sendErrorMessage env (chat_id (chat msg))
     else handleIncomingMessage env msg) w
  with
  | (Ok _, w') => snd (message env event w) = w'
  | (Throw _, w') =>
      snd (message env event w) =
        mkWorld (table w') (tmpdir w')
          (calls w' ++
           [SendMessage (chat_id (chat msg))
              "There was a problem with your request." no_options])
  end.
Proof.
  intros Hparse Hmsg. unfold message. rewrite Hparse, Hmsg.
  unfold finally_return, try_catch. cbn [fst snd].
  split; [done |]. split; [done |].
  destruct (mbind (M := M) _ _ w) as [[u | e] w']; [done |].
  unfold sendErrorMessage. by rewrite bot_sendMessage_run.
Qed.

Lemma message_returns_response_witness :
  JSON_parse unreadable (body (mkEvent photo_body)) = Some photo_update /\
  message_of photo_update = Some photo_message /\
  fst (message unreadable (mkEvent photo_body) (world_with_marker 101))
    = Ok response /\
  statusCode response = 200.
Proof.
  split; [reflexivity |]. split; [reflexivity |].
  destruct (message_returns_response unreadable (mkEvent photo_body)
              (world_with_marker 101) photo_update photo_message)
    as (Hresponse & Hstatus & _); [reflexivity | reflexivity |].
  split; [exact Hresponse | exact Hstatus].
Defined.

(** C6: a body without a [message], as the update for an edited
    message has it, and a body that is not JSON make the handler throw
    before the [try] statement is entered: the invocation fails, no
    response with status 200 is returned and nothing is sent. *)
Lemma message_throws_outside_try :
  message (decoding None) (mkEvent malformed_body) (world_with_marker 101)
    = (Throw SyntaxError, world_with_marker 101) /\
  message (decoding None) (mkEvent edited_body) (world_with_marker 101)
    = (Throw TypeError, world_with_marker 101) /\
  fst (message (decoding None) (mkEvent malformed_body) (world_with_marker 101))
    <> Ok response.
Proof. split; [reflexivity |]. split; [reflexivity | discriminate]. Qed.

(** ** Photos *)

Lemma decodePhoto_removes_file_on_success env photo w path bitmap code :
  downloadFile_path env w (file_id photo) = Some path ->
  (forall w', Jimp_bitmap env w' path = Some bitmap) ->
  jsQR_result env bitmap = Some code ->
  fst (decodePhoto env photo w) = Ok (or_blank (data code)) /\
  tmpdir (snd (decodePhoto env photo w)) = tmpdir w ∖ {[path]}.
Proof.
  intros Hdl Hread Hqr.
  unfold decodePhoto, bot_downloadFile, Jimp_read, decodeBitmap, jsQR,
    fs_unlinkSync.
  run_js. rewrite Hdl. run_js. rewrite Hread. run_js. rewrite Hqr. run_js.
  rewrite bool_decide_eq_true_2
    by (apply elem_of_union; left; by apply elem_of_singleton).
  cbn. split; [done |].
  apply set_eq. intros x. rewrite !elem_of_difference, elem_of_union.
  tauto.
Qed.

Lemma decodePhoto_keeps_file_when_read_fails env photo w path :
  downloadFile_path env w (file_id photo) = Some path ->
  (forall w', Jimp_bitmap env w' path = None) ->
  fst (decodePhoto env photo w) = Throw (Rejected (JimpRead path)) /\
  path ∈ tmpdir (snd (decodePhoto env photo w)).
Proof.
  intros Hdl Hread. unfold decodePhoto, bot_downloadFile, Jimp_read.
  run_js. rewrite Hdl. run_js. rewrite Hread. run_js.
  split; [done | set_solver].
Qed.

(** C4: the downloaded file stays in the temporary directory when a step
    after the download fails.  When Jimp cannot read the image, both
    variants of [decodePhoto] throw with the file still there; when jsQR
    finds no code, the current variant throws inside [decodeBitmap],
    before [fs.unlinkSync] is reached.  The file is removed when every
    step succeeds. *)
Lemma decodePhoto_leaves_file_on_failure :
  decodePhoto unreadable large_size (world_with_marker 102)
    = (Throw (Rejected (JimpRead tmp_path)),
       mkWorld (table (world_with_marker 102)) {[tmp_path]}
         [DownloadFile "large"; JimpRead tmp_path]) /\
  Part000.decodePhoto unreadable large_size (world_with_marker 102)
    = (Throw (Rejected (JimpRead tmp_path)),
       mkWorld (table (world_with_marker 102)) {[tmp_path]}
         [DownloadFile "large"; JimpRead tmp_path]) /\
  decodePhoto (decoding None) large_size (world_with_marker 102)
    = (Throw TypeError,
       mkWorld (table (world_with_marker 102)) {[tmp_path]}
         [DownloadFile "large"; JimpRead tmp_path; JsQR some_bitmap]) /\
  decodePhoto (decoding (Some (mkQRCode "hello"))) large_size
      (world_with_marker 102)
    = (Ok "hello",
       mkWorld (table (world_with_marker 102)) ∅
         [DownloadFile "large"; JimpRead tmp_path; JsQR some_bitmap;
          UnlinkSync tmp_path]).
Proof. repeat split; reflexivity. Qed.

Lemma replyDecoded_blank env msg w :
  calls (snd (replyDecoded env msg "" w))
    = calls w ++ [SendMessage (chat_id (chat msg)) emptyMessage
                    (markdown_reply (message_id msg))].
Proof.
  unfold replyDecoded. rewrite bool_decide_eq_true_2 by done.
  unfold sendMarkdownReply, sendMarkdownMessage.
  by rewrite bot_sendMessage_run.
Qed.

(** C5: when jsQR finds no code it returns [null], and [decodeBitmap]
    throws on [result.data] instead of giving the empty string; the chat
    receives the in-progress notice and then the generic error message,
    never the could-not-be-decoded reply.  That reply is sent when jsQR
    returns a code whose data is empty. *)
Lemma no_code_found_sends_error_message :
  decodeBitmap (decoding None) some_bitmap (world_with_marker 101)
    = (Throw TypeError,
       mkWorld (table (world_with_marker 101)) ∅ [JsQR some_bitmap]) /\
  calls (snd (message (decoding None) (mkEvent photo_body)
                (world_with_marker 101)))
    = [DbGet latest_update_id;
       DbUpdate latest_update_id latest_update_id 102;
       SendMessage 7 decodingMessage markdown;
       DownloadFile "large"; JimpRead tmp_path; JsQR some_bitmap;
       SendMessage 7 "There was a problem with your request." no_options] /\
  calls (snd (message (decoding (Some (mkQRCode ""))) (mkEvent photo_body)
                (world_with_marker 101)))
    = [DbGet latest_update_id;
       DbUpdate latest_update_id latest_update_id 102;
       SendMessage 7 decodingMessage markdown;
       DownloadFile "large"; JimpRead tmp_path; JsQR some_bitmap;
       UnlinkSync tmp_path;
       SendMessage 7 emptyMessage (markdown_reply 6)].
Proof. repeat split; reflexivity. Qed.

(** C7: when the last size of the photo is wider or higher than the
    configured limit, [handlePhotoMessage] makes exactly one collaborator
    call, the size-limit message to the chat; nothing is downloaded or
    decoded, and the message is delivered when the bot client resolves. *)
Theorem handlePhotoMessage_oversized env msg w photo limit :
  last_photo msg = Some photo ->
  MAX_PHOTO_SIZE env = Some limit ->
  width photo > limit \/ height photo > limit ->
  handlePhotoMessage env msg w =
    (if sendMessage_resolves env w (chat_id (chat msg))
          (sizeLimitMessage (Some limit)) markdown
     then Ok tt
     else Throw (Rejected (SendMessage (chat_id (chat msg))
                             (sizeLimitMessage (Some limit)) markdown)),
     mkWorld (table w) (tmpdir w)
       (calls w ++ [SendMessage (chat_id (chat msg))
                      (sizeLimitMessage (Some limit)) markdown])) /\
  filter (fun c => is_decode_step c = true)
    (calls (snd (handlePhotoMessage env msg w)))
    = filter (fun c => is_decode_step c = true) (calls w).
Proof.
  intros Hlast Hlimit Hsize.
  assert (handlePhotoMessage env msg w =
            sendMarkdownMessage env (chat_id (chat msg))
              (sizeLimitMessage (Some limit)) no_options w) as ->.
  { unfold handlePhotoMessage. rewrite Hlast, Hlimit. cbn [js_gt].
    destruct Hsize as [H | H].
    - by rewrite (bool_decide_eq_true_2 _ H).
    - rewrite (bool_decide_eq_true_2 _ H). by rewrite orb_true_r. }
  unfold sendMarkdownMessage. rewrite bot_sendMessage_run.
  split; [done |]. cbn [snd calls].
  rewrite filter_app. cbn. apply app_nil_r.
Qed.

Lemma handlePhotoMessage_oversized_witness :
  last_photo huge_photo_message = Some huge_size /\
  MAX_PHOTO_SIZE (decoding None) = Some 1280 /\
  (width huge_size > 1280 \/ height huge_size > 1280) /\
  handlePhotoMessage (decoding None) huge_photo_message (world_with_marker 101)
    = (Ok tt,
       mkWorld (table (world_with_marker 101)) ∅
         [SendMessage 7 "I'm sorry, I will only decode images up to 1280x1280."
            markdown]).
Proof.
  split; [reflexivity |]. split; [reflexivity |].
  split; [left; reflexivity |].
  apply (handlePhotoMessage_oversized (decoding None) huge_photo_message
           (world_with_marker 101) huge_size 1280);
    [reflexivity | reflexivity | left; reflexivity].
Defined.

Lemma sendContactReply_run env chatId messageId vcard w :
  sendContactReply env chatId messageId vcard w =
    match extractProperties env vcard with
    | Ok properties =>
        bot_sendContact env chatId (telephone properties) (name properties)
          (mkSendContactOptions vcard messageId) w
    | Throw e => (Throw e, w)
    end.
Proof.
  unfold sendContactReply, sync. rewrite bind_run.
  by destruct (extractProperties env vcard).
Qed.

Lemma replyDecoded_two_actions env msg data properties w :
  bot_resolves env ->
  data <> "" ->
  (startsWith data "BEGIN:VCARD" = true ->
   extractProperties env data = Ok properties) ->
  replyDecoded env msg data w =
    (Ok tt,
     mkWorld (table w) (tmpdir w)
       (calls w ++
        if startsWith data "BEGIN:VCARD" then
          [SendMessage (chat_id (chat msg)) contactDoneMessage markdown;
           SendContact (chat_id (chat msg))
             (telephone properties) (name properties)
             (mkSendContactOptions data (message_id msg))]
        else
          [SendMessage (chat_id (chat msg)) textDoneMessage markdown;
           SendMessage (chat_id (chat msg)) data
             (markdown_reply (message_id msg))])).
Proof.
  intros [Hmsg Hcontact] Hdata Hproperties. unfold replyDecoded.
  rewrite bool_decide_eq_false_2 by done.
  unfold sendMarkdownReply, sendMarkdownMessage.
  destruct (startsWith data "BEGIN:VCARD");
    rewrite bind_run, bot_sendMessage_run, Hmsg.
  - rewrite sendContactReply_run, Hproperties by done.
    rewrite bot_sendContact_run, Hcontact. cbn. by rewrite <- app_assoc.
  - rewrite bot_sendMessage_run, Hmsg. cbn. by rewrite <- app_assoc.
Qed.

Lemma handlePhotoMessage_within_limit env msg photo w data w' :
  last_photo msg = Some photo ->
  js_gt (width photo) (MAX_PHOTO_SIZE env)
    || js_gt (height photo) (MAX_PHOTO_SIZE env) = false ->
  sendMessage_resolves env w (chat_id (chat msg)) decodingMessage markdown
    = true ->
  decodePhoto env photo
    (mkWorld (table w) (tmpdir w)
       (calls w ++ [SendMessage (chat_id (chat msg)) decodingMessage markdown]))
    = (Ok data, w') ->
  handlePhotoMessage env msg w = replyDecoded env msg data w'.
Proof.
  intros Hlast Hsize Hsend Hdecode. unfold handlePhotoMessage.
  rewrite Hlast, Hsize. unfold sendMarkdownMessage at 1.
  rewrite bind_run, bot_sendMessage_run. cbn [reply_to_message_id no_options].
  fold markdown. rewrite Hsend. by rewrite bind_run, Hdecode.
Qed.

(** X26: when the photo is within the limit, the bot client resolves,
    [decodePhoto] gives a non-empty [data] and, for data starting with
    BEGIN:VCARD, the properties can be extracted, the handler completes
    with exactly two more outbound calls, in this order: the
    announcement as a plain markdown message, then, for data starting
    with BEGIN:VCARD, the contact with the extracted telephone and name
    and the raw data attached, and otherwise the data itself, either one
    sent as a reply to the original message. *)
Theorem handlePhotoMessage_decoded_two_actions
    env msg photo w data w' properties :
  bot_resolves env ->
  last_photo msg = Some photo ->
  js_gt (width photo) (MAX_PHOTO_SIZE env)
    || js_gt (height photo) (MAX_PHOTO_SIZE env) = false ->
  decodePhoto env photo
    (mkWorld (table w) (tmpdir w)
       (calls w ++ [SendMessage (chat_id (chat msg)) decodingMessage markdown]))
    = (Ok data, w') ->
  data <> "" ->
  (startsWith data "BEGIN:VCARD" = true ->
   extractProperties env data = Ok properties) ->
  handlePhotoMessage env msg w =
    (Ok tt,
     mkWorld (table w') (tmpdir w')
       (calls w' ++
        if startsWith data "BEGIN:VCARD" then
          [SendMessage (chat_id (chat msg)) contactDoneMessage markdown;
           SendContact (chat_id (chat msg))
             (telephone properties) (name properties)
             (mkSendContactOptions data (message_id msg))]
        else
          [SendMessage (chat_id (chat msg)) textDoneMessage markdown;
           SendMessage (chat_id (chat msg)) data
             (markdown_reply (message_id msg))])).
Proof.
  intros Hbot Hlast Hsize Hdecode Hdata Hproperties.
  rewrite (handlePhotoMessage_within_limit env msg photo w data w');
    [| done | done | apply Hbot | done].
  by apply replyDecoded_two_actions.
Qed.

Lemma handlePhotoMessage_decoded_two_actions_witness :
  bot_resolves decoding_contact /\
  last_photo photo_message = Some large_size /\
  decodePhoto decoding_contact large_size
    (mkWorld (table (world_with_marker 102)) ∅
       [SendMessage 7 decodingMessage markdown])
    = (Ok contact_text, world_after_decoding) /\
  contact_text <> "" /\
  extractProperties decoding_contact contact_text
    = Ok (mkContactProperties "Ada Lovelace" "+44 20 7946 0000") /\
  handlePhotoMessage decoding_contact photo_message (world_with_marker 102)
    = (Ok tt,
       mkWorld (table (world_with_marker 102)) ∅
         (calls world_after_decoding ++
          [SendMessage 7 contactDoneMessage markdown;
           SendContact 7 "+44 20 7946 0000" "Ada Lovelace"
             (mkSendContactOptions contact_text 6)])) /\
  handlePhotoMessage (decoding (Some (mkQRCode "hello"))) photo_message
      (world_with_marker 102)
    = (Ok tt,
       mkWorld (table (world_with_marker 102)) ∅
         (calls world_after_decoding ++
          [SendMessage 7 textDoneMessage markdown;
           SendMessage 7 "hello" (markdown_reply 6)])).
Proof.
  split; [by split |]. split; [reflexivity |]. split; [reflexivity |].
  split; [discriminate |]. split; [reflexivity |]. split.
  - apply (handlePhotoMessage_decoded_two_actions decoding_contact
             photo_message large_size (world_with_marker 102) contact_text
             world_after_decoding
             (mkContactProperties "Ada Lovelace" "+44 20 7946 0000"));
      [by split | reflexivity | reflexivity | reflexivity | discriminate
      | reflexivity].
  - apply (handlePhotoMessage_decoded_two_actions
             (decoding (Some (mkQRCode "hello")))
             photo_message large_size (world_with_marker 102) "hello"
             world_after_decoding
             (mkContactProperties "" ""));
      [by split | reflexivity | reflexivity | reflexivity | discriminate
      | discriminate].
Defined.

(** C8: a contact whose parsed name is an array gets no contact reply.
    The photo is decoded and the announcement is sent, then
    [extractProperties] throws on [fn.value.trim()], so that
    [bot.sendContact] is never called and the second message to the chat
    is the generic error message. *)
Lemma contact_with_list_value_gets_no_contact :
  startsWith list_contact_text "BEGIN:VCARD" = true /\
  handlePhotoMessage decoding_list_contact photo_message (world_with_marker 102)
    = (Throw TypeError,
       mkWorld (table (world_with_marker 102)) ∅
         (calls world_after_decoding ++
          [SendMessage 7 contactDoneMessage markdown])) /\
  calls (snd (message decoding_list_contact (mkEvent photo_body)
                (world_with_marker 101)))
    = [DbGet latest_update_id;
       DbUpdate latest_update_id latest_update_id 102;
       SendMessage 7 decodingMessage markdown;
       DownloadFile "large"; JimpRead tmp_path; JsQR some_bitmap;
       UnlinkSync tmp_path;
       SendMessage 7 contactDoneMessage markdown;
       SendMessage 7 errorMessage no_options].
Proof. repeat split; reflexivity. Qed.

(** ** The contact property extractor *)

Lemma default_last_cons {A} (x y : A) (l : list A) :
  default x (last (y :: l)) = default y (last l).
Proof. rewrite last_cons. by destruct (last l). Qed.

Lemma forEach_assign_last values init :
  forEach_assign (text_entries values) init =
    Ok (default init (last (filter (fun v => trim v ≠ "") values))).
Proof.
  revert init.
  induction values as [| v values IH]; intros init; [done |].
  cbn [text_entries fmap list_fmap forEach_assign value].
  fold (text_entries values). rewrite IH, filter_cons.
  case_bool_decide; case_decide; try done.
  by rewrite default_last_cons.
Qed.

(** X27: when the values of the [fn] and [tel] entries are strings, the
    extractor returns as name the last non-blank value among the
    entries of [fn], and [No name found] when the field is absent or has
    no non-blank entry; as telephone the last non-blank value among the
    entries of [tel], and [123456789] likewise. *)
Theorem extractProperties_last_non_blank env vcard fn tel :
  vCard_parse env vcard !! "fn" = text_entries <$> fn ->
  vCard_parse env vcard !! "tel" = text_entries <$> tel ->
  extractProperties env vcard =
    Ok (mkContactProperties
          (last_non_blank fn "No name found")
          (last_non_blank tel "123456789")).
Proof.
  intros Hfn Htel. unfold extractProperties, last_non_blank.
  rewrite Hfn, Htel.
  destruct fn, tel; cbn [fmap option_fmap option_map];
    by rewrite ?forEach_assign_last.
Qed.

Lemma extractProperties_last_non_blank_witness :
  extractProperties
    (collaborators None None None
       {["fn" := text_entries ["Ada"; "Ada Lovelace"; "  "];
         "tel" := text_entries [" "; ""]]})
    contact_text
  = Ok (mkContactProperties "Ada Lovelace" "123456789").
Proof.
  apply (extractProperties_last_non_blank _ contact_text
           (Some ["Ada"; "Ada Lovelace"; "  "]) (Some [" "; ""]));
    reflexivity.
Defined.

Lemma forEach_assign_list_value entries items rest init :
  forEach_assign (entries ++ mkProperty (ListValue items) :: rest) init
    = Throw TypeError.
Proof.
  revert init. induction entries as [| entry entries IH]; intros init; [done |].
  cbn [app forEach_assign]. by destruct (value entry).
Qed.

(** C9: a parsed contact whose [fn] or [tel] holds an entry with an
    array for its value gets neither a name nor a telephone: the
    extractor throws a TypeError on [value.trim()], also when the other
    entries would have given the properties. *)
Lemma extractProperties_list_value_throws :
  list_contact_card !! "fn" = Some [mkProperty (ListValue ["Doe"; "John"])] /\
  extractProperties decoding_list_contact list_contact_text = Throw TypeError /\
  extractProperties (collaborators None None None list_telephone_card)
    contact_text = Throw TypeError.
Proof. repeat split; reflexivity. Qed.

(** ** The router *)

Lemma handleTextMessage_calls env msg w :
  let new :=
    match text msg with
    | Some t =>
        if bool_decide (t = "/start") then [startMessage]
        else if bool_decide (t = "/about") then [aboutMessage]
        else if bool_decide (t = "/app") then [appMessage]
        else []
    | None => []
    end in
  calls (snd (handleTextMessage env msg w)) =
    calls w ++ ((fun t => SendMessage (chat_id (chat msg)) t markdown) <$> new).
Proof.
  unfold handleTextMessage, sendMarkdownMessage.
  repeat case_match; subst; cbn -[startMessage aboutMessage appMessage];
    rewrite ?bot_sendMessage_run, ?app_nil_r; done.
Qed.

(** C10: a message with a non-empty text and a non-empty photo sequence
    is handled by the text handler alone: the outcome is that of
    [handleTextMessage], the only call it can add to the log is the reply
    to a known command, and no download, image read or jsQR call is
    made. *)
Theorem handleIncomingMessage_text_precedence env msg w t sizes :
  text msg = Some t ->
  t <> "" ->
  photo msg = Some sizes ->
  sizes <> [] ->
  handleIncomingMessage env msg w = handleTextMessage env msg w /\
  calls (snd (handleIncomingMessage env msg w)) =
    calls w ++
    ((fun reply => SendMessage (chat_id (chat msg)) reply markdown) <$>
     (if bool_decide (t = "/start") then [startMessage]
      else if bool_decide (t = "/about") then [aboutMessage]
      else if bool_decide (t = "/app") then [appMessage]
      else [])) /\
  filter (fun c => is_decode_step c = true)
    (calls (snd (handleIncomingMessage env msg w)))
    = filter (fun c => is_decode_step c = true) (calls w).
Proof.
  intros Htext Ht Hphoto Hsizes.
  assert (handleIncomingMessage env msg w = handleTextMessage env msg w) as ->.
  { unfold handleIncomingMessage. rewrite Htext. cbn [truthy_string].
    by rewrite bool_decide_eq_false_2. }
  split; [done |].
  pose proof (handleTextMessage_calls env msg w) as Hcalls.
  cbn zeta in Hcalls. rewrite Htext in Hcalls. rewrite Hcalls.
  split; [done |]. rewrite filter_app.
  repeat case_bool_decide; cbn; by rewrite app_nil_r.
Qed.

Lemma handleIncomingMessage_text_precedence_witness :
  text text_and_photo_message = Some "/about" /\
  photo text_and_photo_message = Some [small_size; large_size] /\
  handleIncomingMessage (decoding None) text_and_photo_message
      (world_with_marker 101)
    = handleTextMessage (decoding None) text_and_photo_message
        (world_with_marker 101) /\
  calls (snd (handleIncomingMessage (decoding None) text_and_photo_message
                (world_with_marker 101)))
    = [SendMessage 7 aboutMessage markdown].
Proof.
  split; [reflexivity |]. split; [reflexivity |].
  pose proof (handleIncomingMessage_text_precedence (decoding None)
                text_and_photo_message (world_with_marker 101) "/about"
                [small_size; large_size]) as H.
  destruct H as (Hsame & Hcalls & _);
    [reflexivity | discriminate | reflexivity | discriminate |].
  split; [exact Hsame | exact Hcalls].
Defined.

(** ** What the handlers of a message may do *)

Lemma confined_ret {A} P (a : A) : confined P (mret a : M A).
Proof. intros w. split; [done |]. exists []. by rewrite app_nil_r. Qed.

Lemma confined_throw {A} P e : confined P (throw e : M A).
Proof. intros w. split; [done |]. exists []. by rewrite app_nil_r. Qed.

Lemma confined_bind {A B} P (m : M A) (k : A -> M B) :
  confined P m -> (forall a, confined P (k a)) -> confined P (m ≫= k).
Proof.
  intros Hm Hk w. rewrite bind_run.
  destruct (Hm w) as (Htable & new & Hcalls & Hnew).
  destruct (m w) as [[a | e] w1]; cbn [snd] in *.
  - destruct (Hk a w1) as (Htable' & new' & Hcalls' & Hnew').
    split; [congruence |]. exists (new ++ new').
    rewrite Hcalls', Hcalls, app_assoc. split; [done |].
    rewrite forallb_app. by rewrite Hnew, Hnew'.
  - split; [done |]. by exists new.
Qed.

Lemma confined_sendMessage env P chatId msg options :
  P (SendMessage chatId msg options) = true ->
  confined P (bot_sendMessage env chatId msg options).
Proof.
  intros Hc w. rewrite bot_sendMessage_run. split; [done |].
  exists [SendMessage chatId msg options]. split; [done |].
  cbn. by rewrite Hc.
Qed.

Lemma confined_sendContact env P chatId phone contact options :
  P (SendContact chatId phone contact options) = true ->
  confined P (bot_sendContact env chatId phone contact options).
Proof.
  intros Hc w. rewrite bot_sendContact_run. split; [done |].
  exists [SendContact chatId phone contact options]. split; [done |].
  cbn. by rewrite Hc.
Qed.

Lemma confined_downloadFile env P fileId :
  P (DownloadFile fileId) = true -> confined P (bot_downloadFile env fileId).
Proof.
  intros Hc w. unfold bot_downloadFile. run_js.
  destruct (downloadFile_path env w fileId); run_js;
    (split; [done |]); exists [DownloadFile fileId];
    (split; [done |]); cbn; by rewrite Hc.
Qed.

Lemma confined_Jimp_read env P path :
  P (JimpRead path) = true -> confined P (Jimp_read env path).
Proof.
  intros Hc w. unfold Jimp_read. run_js.
  destruct (Jimp_bitmap env w path); run_js;
    (split; [done |]); exists [JimpRead path];
    (split; [done |]); cbn; by rewrite Hc.
Qed.

Lemma confined_jsQR env P bitmap :
  P (JsQR bitmap) = true -> confined P (jsQR env bitmap).
Proof.
  intros Hc w. unfold jsQR. run_js. split; [done |].
  exists [JsQR bitmap]. split; [done |]. cbn. by rewrite Hc.
Qed.

Lemma confined_unlinkSync P path :
  P (UnlinkSync path) = true -> confined P (fs_unlinkSync path).
Proof.
  intros Hc w. unfold fs_unlinkSync. run_js.
  case_bool_decide; run_js;
    (split; [done |]); exists [UnlinkSync path];
    (split; [done |]); cbn; by rewrite Hc.
Qed.

Lemma handler_call_markdown chatId msg options :
  handler_call chatId
    (SendMessage chatId msg
       (mkSendMessageOptions (Some "Markdown") (reply_to_message_id options)))
  = true.
Proof. cbn. by rewrite !bool_decide_eq_true_2. Qed.

Lemma confined_sendMarkdownMessage env chatId msg options :
  confined (handler_call chatId) (sendMarkdownMessage env chatId msg options).
Proof. apply confined_sendMessage, handler_call_markdown. Qed.

Lemma confined_decodeBitmap env chatId bitmap :
  confined (handler_call chatId) (decodeBitmap env bitmap).
Proof.
  unfold decodeBitmap. apply confined_bind; [by apply confined_jsQR |].
  intros [code |]; [apply confined_ret | apply confined_throw].
Qed.

Lemma confined_decodePhoto env chatId photo :
  confined (handler_call chatId) (decodePhoto env photo).
Proof.
  unfold decodePhoto.
  apply confined_bind; [by apply confined_downloadFile |]. intros path.
  apply confined_bind; [by apply confined_Jimp_read |]. intros bitmap.
  apply confined_bind; [apply confined_decodeBitmap |]. intros result.
  apply confined_bind; [by apply confined_unlinkSync |]. intros _.
  apply confined_ret.
Qed.

Lemma confined_Part000_decodePhoto env chatId photo :
  confined (handler_call chatId) (Part000.decodePhoto env photo).
Proof.
  unfold Part000.decodePhoto.
  apply confined_bind; [by apply confined_downloadFile |]. intros path.
  apply confined_bind; [by apply confined_Jimp_read |]. intros bitmap.
  apply confined_bind; [by apply confined_jsQR |]. intros result.
  apply confined_bind; [by apply confined_unlinkSync |]. intros _.
  destruct result; [apply confined_ret | apply confined_throw].
Qed.

Lemma confined_replyDecoded env msg data :
  confined (handler_call (chat_id (chat msg))) (replyDecoded env msg data).
Proof.
  unfold replyDecoded, sendMarkdownReply.
  case_bool_decide; [apply confined_sendMarkdownMessage |].
  destruct (startsWith data "BEGIN:VCARD");
    (apply confined_bind; [apply confined_sendMarkdownMessage |]); intros _.
  - intros w. rewrite sendContactReply_run.
    destruct (extractProperties env data) as [properties | e];
      [| apply (confined_throw _ e w)].
    apply confined_sendContact. cbn. by rewrite bool_decide_eq_true_2.
  - apply confined_sendMarkdownMessage.
Qed.

Lemma confined_handlePhotoMessage env msg :
  confined (handler_call (chat_id (chat msg))) (handlePhotoMessage env msg).
Proof.
  unfold handlePhotoMessage.
  destruct (last_photo msg) as [photo |]; [| apply confined_throw].
  destruct (_ || _); [apply confined_sendMarkdownMessage |].
  apply confined_bind; [apply confined_sendMarkdownMessage |]. intros _.
  apply confined_bind; [apply confined_decodePhoto |]. intros data.
  apply confined_replyDecoded.
Qed.

Lemma confined_handleTextMessage env msg :
  confined (handler_call (chat_id (chat msg))) (handleTextMessage env msg).
Proof.
  unfold handleTextMessage.
  repeat case_match;
    first [apply confined_sendMarkdownMessage | apply confined_ret].
Qed.

Lemma handleTextMessage_run env msg w :
  handleTextMessage env msg w =
    match text msg with
    | Some t =>
        match command_replies t with
        | reply :: _ =>
            sendMarkdownMessage env (chat_id (chat msg)) reply no_options w
        | [] => (Ok tt, w)
        end
    | None => (Ok tt, w)
    end.
Proof.
  unfold handleTextMessage, command_replies.
  destruct (text msg) as [t |]; [| done].
  destruct (decide (t = "/start")) as [-> | Hstart]; [done |].
  rewrite (bool_decide_eq_false_2 _ Hstart).
  destruct (decide (t = "/about")) as [-> | Habout]; [done |].
  rewrite (bool_decide_eq_false_2 _ Habout).
  destruct (decide (t = "/app")) as [-> | Happ]; [done |].
  rewrite (bool_decide_eq_false_2 _ Happ).
  repeat case_match; subst; done.
Qed.

Lemma confined_handleIncomingMessage env msg :
  confined (handler_call (chat_id (chat msg))) (handleIncomingMessage env msg).
Proof.
  unfold handleIncomingMessage.
  destruct (truthy_string (text msg)); [apply confined_handleTextMessage |].
  destruct (photo msg) as [sizes |]; [| apply confined_ret].
  destruct (0 <? length sizes)%nat;
    [apply confined_handlePhotoMessage | apply confined_ret].
Qed.

(** X1: whatever it is given, [handleIncomingMessage] leaves the DynamoDB
    table alone and makes no request to the marker store; every message
    it sends is a markdown message to the chat of the incoming message,
    every contact goes to that chat too. *)
Theorem handleIncomingMessage_calls env msg w :
  table (snd (handleIncomingMessage env msg w)) = table w /\
  exists new,
    calls (snd (handleIncomingMessage env msg w)) = calls w ++ new /\
    forallb (handler_call (chat_id (chat msg))) new = true.
Proof. apply confined_handleIncomingMessage. Qed.

(** X2: a text that is not exactly one of the three commands is answered
    by nothing: the handler completes and the world is as before. *)
Theorem handleTextMessage_unknown_text env msg w :
  text msg <> Some "/start" ->
  text msg <> Some "/about" ->
  text msg <> Some "/app" ->
  handleTextMessage env msg w = (Ok tt, w).
Proof.
  intros Hstart Habout Happ. rewrite handleTextMessage_run.
  destruct (text msg) as [t |]; [| done]. unfold command_replies.
  rewrite !bool_decide_eq_false_2; [done | | |]; congruence.
Qed.

Lemma handleTextMessage_unknown_text_witness :
  text shouting_message <> Some "/start" /\
  text shouting_message <> Some "/about" /\
  text shouting_message <> Some "/app" /\
  handleTextMessage (decoding None) shouting_message (world_with_marker 101)
    = (Ok tt, world_with_marker 101).
Proof.
  split; [discriminate |]. split; [discriminate |]. split; [discriminate |].
  apply (handleTextMessage_unknown_text (decoding None) shouting_message
           (world_with_marker 101)); discriminate.
Defined.

(** X3: a message with no text, or an empty one, and no photo, or an
    empty photo sequence, is handled by doing nothing. *)
Theorem handleIncomingMessage_noop env msg w :
  text msg = None \/ text msg = Some "" ->
  photo msg = None \/ photo msg = Some [] ->
  handleIncomingMessage env msg w = (Ok tt, w).
Proof.
  intros Htext Hphoto. unfold handleIncomingMessage.
  by destruct Htext as [-> | ->], Hphoto as [-> | ->].
Qed.

Lemma handleIncomingMessage_noop_witness :
  (text sticker_message = None \/ text sticker_message = Some "") /\
  (photo sticker_message = None \/ photo sticker_message = Some []) /\
  handleIncomingMessage rejecting_bot sticker_message (world_with_marker 101)
    = (Ok tt, world_with_marker 101).
Proof.
  split; [by left |]. split; [by left |].
  apply (handleIncomingMessage_noop rejecting_bot sticker_message
           (world_with_marker 101)); by left.
Defined.

(** X4: a message without a usable text and with a non-empty photo
    sequence goes to the photo handler, which then always finds the
    photo it selects, the last of the sequence. *)
Theorem handleIncomingMessage_photo env msg w sizes size :
  text msg = None \/ text msg = Some "" ->
  photo msg = Some (sizes ++ [size]) ->
  handleIncomingMessage env msg w = handlePhotoMessage env msg w /\
  last_photo msg = Some size.
Proof.
  intros Htext Hphoto. split.
  - assert ((0 <? length (sizes ++ [size]))%nat = true) as Hlength.
    { apply Nat.ltb_lt. rewrite length_app. cbn. lia. }
    unfold handleIncomingMessage. rewrite Hphoto, Hlength.
    by destruct Htext as [-> | ->].
  - unfold last_photo. rewrite Hphoto. cbn [mbind option_bind].
    apply last_snoc.
Qed.

Lemma handleIncomingMessage_photo_witness :
  (text empty_text_photo_message = None \/
   text empty_text_photo_message = Some "") /\
  photo empty_text_photo_message = Some ([small_size] ++ [large_size]) /\
  handleIncomingMessage (decoding None) empty_text_photo_message
      (world_with_marker 101)
    = handlePhotoMessage (decoding None) empty_text_photo_message
        (world_with_marker 101) /\
  last_photo empty_text_photo_message = Some large_size.
Proof.
  split; [by right |]. split; [reflexivity |].
  apply (handleIncomingMessage_photo (decoding None) empty_text_photo_message
           (world_with_marker 101) [small_size] large_size);
    [by right | reflexivity].
Defined.

(** ** More on the idempotency gate *)

Lemma marker_table w w' : table w = table w' -> marker w = marker w'.
Proof. unfold marker. by intros ->. Qed.

Lemma checkAlreadyHandled_marker_bounds env w latest current :
  marker w = Some latest ->
  marker (snd (checkAlreadyHandled env current w)) = Some latest \/
  (latest < current /\
   marker (snd (checkAlreadyHandled env current w)) = Some current).
Proof.
  intros Hmarker.
  destruct (marker_Some _ _ Hmarker) as (item & Hitem & Hlatest).
  unfold checkAlreadyHandled, db_get, db_update. run_js.
  destruct (db_get_resolves env w latest_update_id); run_js; [| by left].
  rewrite Hitem, Hlatest. cbn [js_lt]. case_bool_decide; run_js; [| by left].
  destruct (db_update_resolves env _ _ _ _); run_js; [| by left].
  right. split; [done |]. unfold marker. cbn.
  rewrite lookup_insert_eq. cbn. apply lookup_insert_eq.
Qed.

(** X5: a marker record that lacks the [latest_update_id] attribute makes
    the gate report every update as already handled, whatever its id,
    and the record is left as it is. *)
Theorem checkAlreadyHandled_missing_attribute env w item current :
  table w !! latest_update_id = Some item ->
  item !! latest_update_id = None ->
  db_get_resolves env w latest_update_id = true ->
  checkAlreadyHandled env current w =
    (Ok true,
     mkWorld (table w) (tmpdir w) (calls w ++ [DbGet latest_update_id])).
Proof.
  intros Hitem Hattr Hget.
  apply (checkAlreadyHandled_old env w item current); [done | | done].
  by rewrite Hattr.
Qed.

Lemma checkAlreadyHandled_missing_attribute_witness :
  table world_with_bare_record !! latest_update_id = Some ∅ /\
  (∅ : gmap string Z) !! latest_update_id = None /\
  checkAlreadyHandled (decoding None) 5000 world_with_bare_record =
    (Ok true,
     mkWorld (table world_with_bare_record) ∅ [DbGet latest_update_id]).
Proof.
  split; [reflexivity |]. split; [reflexivity |].
  apply (checkAlreadyHandled_missing_attribute (decoding None)
           world_with_bare_record ∅ 5000); reflexivity.
Defined.



(** X7: when the store rejects the write of a new id, the gate throws
    that rejection and the table is as before, so that the update is not
    handled now and counts as new again on its next delivery. *)
Theorem checkAlreadyHandled_update_rejected env w latest current :
  marker w = Some latest ->
  latest < current ->
  db_get_resolves env w latest_update_id = true ->
  db_update_resolves env
    (mkWorld (table w) (tmpdir w) (calls w ++ [DbGet latest_update_id]))
    latest_update_id latest_update_id current = false ->
  checkAlreadyHandled env current w =
    (Throw (Rejected (DbUpdate latest_update_id latest_update_id current)),
     mkWorld (table w) (tmpdir w)
       (calls w ++ [DbGet latest_update_id;
                    DbUpdate latest_update_id latest_update_id current])).
Proof.
  intros Hmarker Hlt Hget Hupd.
  destruct (marker_Some _ _ Hmarker) as (item & Hitem & Hlatest).
  unfold checkAlreadyHandled, db_get, db_update. run_js.
  rewrite Hget. run_js. rewrite Hitem, Hlatest. cbn [js_lt].
  rewrite bool_decide_eq_true_2 by done. run_js. rewrite Hupd. run_js.
  by rewrite <- app_assoc.
Qed.

Lemma checkAlreadyHandled_update_rejected_witness :
  marker (world_with_marker 100) = Some 100 /\
  100 < 101 /\
  checkAlreadyHandled read_only_store 101 (world_with_marker 100) =
    (Throw (Rejected (DbUpdate latest_update_id latest_update_id 101)),
     mkWorld (table (world_with_marker 100)) ∅
       [DbGet latest_update_id;
        DbUpdate latest_update_id latest_update_id 101]).
Proof.
  split; [reflexivity |]. split; [lia |].
  apply (checkAlreadyHandled_update_rejected read_only_store
           (world_with_marker 100) 100 101);
    [reflexivity | lia | reflexivity | reflexivity].
Defined.

(** ** More on the exported function *)

Lemma sendErrorMessage_run env chatId w :
  sendErrorMessage env chatId w =
    (if sendMessage_resolves env w chatId errorMessage no_options then Ok tt
     else Throw (Rejected (SendMessage chatId errorMessage no_options)),
     mkWorld (table w) (tmpdir w)
       (calls w ++ [SendMessage chatId errorMessage no_options])).
Proof. unfold sendErrorMessage. by rewrite bot_sendMessage_run. Qed.

Lemma message_world env event w update msg :
  JSON_parse env (body event) = Some update ->
  message_of update = Some msg ->
  snd (message env event w) =
    match checkAlreadyHandled env (update_id update) w with
    | (Ok true, w1) =>
        match sendErrorMessage env (chat_id (chat msg)) w1 with
        | (Ok _, w2) => w2
        | (Throw _, w2) => snd (sendErrorMessage env (chat_id (chat msg)) w2)
        end
    | (Ok false, w1) =>
        match handleIncomingMessage env msg w1 with
        | (Ok _, w2) => w2
        | (Throw _, w2) => snd (sendErrorMessage env (chat_id (chat msg)) w2)
        end
    | (Throw _, w1) => snd (sendErrorMessage env (chat_id (chat msg)) w1)
    end.
Proof.
  intros Hparse Hmsg. unfold message. rewrite Hparse, Hmsg.
  unfold finally_return, try_catch. cbn [snd]. rewrite bind_run.
  destruct (checkAlreadyHandled env (update_id update) w)
    as [[[] | e] w1]; [| | done].
  - by destruct (sendErrorMessage env (chat_id (chat msg)) w1) as [[] ?].
  - by destruct (handleIncomingMessage env msg w1) as [[] ?].
Qed.

Lemma message_table env event w update msg :
  JSON_parse env (body event) = Some update ->
  message_of update = Some msg ->
  table (snd (message env event w)) =
    table (snd (checkAlreadyHandled env (update_id update) w)).
Proof.
  intros Hparse Hmsg. rewrite (message_world env event w update msg) by done.
  destruct (checkAlreadyHandled env (update_id update) w)
    as [[[] | e] w1]; cbn [snd].
  - rewrite !sendErrorMessage_run.
    by destruct (sendMessage_resolves env w1 _ _ _).
  - pose proof (confined_handleIncomingMessage env msg w1) as [Htable _].
    destruct (handleIncomingMessage env msg w1) as [[] w2]; cbn [snd] in *;
      [done |].
    by rewrite sendErrorMessage_run.
  - by rewrite sendErrorMessage_run.
Qed.

(** X8: an invocation that runs by itself never lowers the marker.
    When no other invocation writes the table between the read and the
    write of this one, a marker that exists before it exists after it
    with a value at least as large, whatever the event and whatever the
    collaborators answer.  The read and the write of the gate are two
    requests, so nothing is said here about invocations that overlap. *)
Theorem message_marker_monotone env event w latest :
  marker w = Some latest ->
  exists m, marker (snd (message env event w)) = Some m /\ latest <= m.
Proof.
  intros Hmarker.
  destruct (JSON_parse env (body event)) as [update |] eqn:Hparse.
  - destruct (message_of update) as [msg |] eqn:Hmsg.
    + rewrite (marker_table _ _ (message_table env event w update msg
                                   Hparse Hmsg)).
      destruct (checkAlreadyHandled_marker_bounds env w latest
                  (update_id update) Hmarker) as [H | [Hlt H]].
      * exists latest. split; [done | lia].
      * exists (update_id update). split; [done | lia].
    + unfold message. rewrite Hparse, Hmsg. exists latest.
      split; [done | lia].
  - unfold message. rewrite Hparse. exists latest. split; [done | lia].
Qed.

Lemma message_marker_monotone_witness :
  marker (world_with_marker 105) = Some 105 /\
  exists m,
    marker (snd (message rejecting_bot (mkEvent photo_body)
                   (world_with_marker 105))) = Some m /\
    105 <= m.
Proof.
  split; [reflexivity |].
  apply (message_marker_monotone rejecting_bot (mkEvent photo_body)
           (world_with_marker 105) 105).
  reflexivity.
Defined.



(** X10: end to end for a text.  With the store and the bot client
    answering, a new update that carries a non-empty text is acknowledged
    with the response after exactly these calls: the read of the marker,
    its update to the id, and the reply to the command when the text is
    one; no file is touched. *)
Theorem message_new_text env event w update msg latest t :
  store_resolves env ->
  bot_resolves env ->
  JSON_parse env (body event) = Some update ->
  message_of update = Some msg ->
  marker w = Some latest ->
  latest < update_id update ->
  text msg = Some t ->
  t <> "" ->
  fst (message env event w) = Ok response /\
  calls (snd (message env event w)) =
    calls w ++
    [DbGet latest_update_id;
     DbUpdate latest_update_id latest_update_id (update_id update)] ++
    ((fun reply => SendMessage (chat_id (chat msg)) reply markdown) <$>
     command_replies t) /\
  tmpdir (snd (message env event w)) = tmpdir w.
Proof.
  intros [Hget Hupd] [Hsend _] Hparse Hmsg Hmarker Hlt Htext Ht.
  split.
  { unfold message. by rewrite Hparse, Hmsg. }
  rewrite (message_world env event w update msg) by done.
  destruct (marker_Some _ _ Hmarker) as (item & Hitem & Hlatest).
  rewrite (checkAlreadyHandled_new env w item (update_id update)); auto.
  2: { rewrite Hlatest. cbn. by apply bool_decide_eq_true. }
  unfold handleIncomingMessage. rewrite Htext. cbn [truthy_string].
  rewrite bool_decide_eq_false_2 by done. cbn [negb].
  rewrite handleTextMessage_run, Htext.
  destruct (command_replies t) as [| reply replies] eqn:Hreplies.
  - cbn. by rewrite <- ?app_assoc.
  - assert (replies = []) as ->.
    { revert Hreplies. unfold command_replies.
      repeat case_bool_decide; congruence. }
    unfold sendMarkdownMessage. rewrite bot_sendMessage_run, Hsend.
    cbn. by rewrite <- !app_assoc.
Qed.

Lemma message_new_text_witness :
  marker (world_with_marker 100) = Some 100 /\
  100 < update_id start_update /\
  fst (message (decoding None) (mkEvent start_body) (world_with_marker 100))
    = Ok response /\
  calls (snd (message (decoding None) (mkEvent start_body)
                (world_with_marker 100)))
    = [DbGet latest_update_id;
       DbUpdate latest_update_id latest_update_id 101;
       SendMessage 7 startMessage markdown] /\
  tmpdir (snd (message (decoding None) (mkEvent start_body)
                 (world_with_marker 100))) = ∅.
Proof.
  split; [reflexivity |]. split; [reflexivity |].
  apply (message_new_text (decoding None) (mkEvent start_body)
           (world_with_marker 100) start_update
           (mkMessage 5 (mkChat 7) (Some "/start") None) 100 "/start");
    [by split | by split | reflexivity | reflexivity | reflexivity
    | reflexivity | reflexivity | discriminate].
Defined.



(** ** More on the decoding of a photo *)

Lemma or_blank_id s : or_blank s = s.
Proof. unfold or_blank. by case_bool_decide. Qed.

Lemma bot_downloadFile_run env fileId w :
  bot_downloadFile env fileId w =
    match downloadFile_path env w fileId with
    | Some path =>
        (Ok path,
         mkWorld (table w) ({[path]} ∪ tmpdir w)
           (calls w ++ [DownloadFile fileId]))
    | None =>
        (Throw (Rejected (DownloadFile fileId)),
         mkWorld (table w) (tmpdir w) (calls w ++ [DownloadFile fileId]))
    end.
Proof.
  unfold bot_downloadFile. run_js.
  by destruct (downloadFile_path env w fileId).
Qed.

Lemma Jimp_read_run env path w :
  Jimp_read env path w =
    (match Jimp_bitmap env w path with
     | Some bitmap => Ok bitmap
     | None => Throw (Rejected (JimpRead path))
     end,
     mkWorld (table w) (tmpdir w) (calls w ++ [JimpRead path])).
Proof. unfold Jimp_read. run_js. by destruct (Jimp_bitmap env w path). Qed.

Lemma jsQR_run env bitmap w :
  jsQR env bitmap w =
    (Ok (jsQR_result env bitmap),
     mkWorld (table w) (tmpdir w) (calls w ++ [JsQR bitmap])).
Proof. reflexivity. Qed.

Lemma fs_unlinkSync_run path w :
  fs_unlinkSync path w =
    if bool_decide (path ∈ tmpdir w)
    then (Ok tt,
          mkWorld (table w) (tmpdir w ∖ {[path]}) (calls w ++ [UnlinkSync path]))
    else (Throw (ENOENT path),
          mkWorld (table w) (tmpdir w) (calls w ++ [UnlinkSync path])).
Proof. unfold fs_unlinkSync. run_js. by case_bool_decide. Qed.

Lemma decodeBitmap_run env bitmap w :
  decodeBitmap env bitmap w =
    (match jsQR_result env bitmap with
     | Some code => Ok (data code)
     | None => Throw TypeError
     end,
     mkWorld (table w) (tmpdir w) (calls w ++ [JsQR bitmap])).
Proof.
  unfold decodeBitmap. rewrite bind_run, jsQR_run.
  destruct (jsQR_result env bitmap); [| done].
  by rewrite or_blank_id.
Qed.

Lemma difference_union_singleton (path : string) (files : gset string) :
  path ∉ files -> ({[path]} ∪ files) ∖ {[path]} = files.
Proof.
  intros Hnew. apply set_eq. intros x.
  rewrite elem_of_difference, elem_of_union, !elem_of_singleton.
  split; [tauto |]. intros Hx. split; [tauto |]. by intros ->.
Qed.

(** X12: a photo that downloads, reads and holds a code is decoded to the
    data of the code by exactly four calls, download, image read, jsQR
    and removal, and when the file is new to the temporary directory,
    the directory ends as it began. *)
Theorem decodePhoto_round_trip env photo w path bitmap code :
  downloadFile_path env w (file_id photo) = Some path ->
  path ∉ tmpdir w ->
  (forall w', Jimp_bitmap env w' path = Some bitmap) ->
  jsQR_result env bitmap = Some code ->
  decodePhoto env photo w =
    (Ok (data code),
     mkWorld (table w) (tmpdir w)
       (calls w ++ [DownloadFile (file_id photo); JimpRead path; JsQR bitmap;
                    UnlinkSync path])).
Proof.
  intros Hdl Hnew Hread Hqr. unfold decodePhoto.
  rewrite bind_run, bot_downloadFile_run, Hdl.
  rewrite bind_run, Jimp_read_run, Hread.
  rewrite bind_run, decodeBitmap_run, Hqr.
  rewrite bind_run, fs_unlinkSync_run. cbn [tmpdir table calls].
  rewrite bool_decide_eq_true_2 by set_solver.
  rewrite difference_union_singleton by done.
  cbn. by rewrite <- !app_assoc.
Qed.

Lemma decodePhoto_round_trip_witness :
  downloadFile_path (decoding (Some (mkQRCode "hello")))
    (world_with_marker 102) (file_id large_size) = Some tmp_path /\
  (tmp_path ∉ tmpdir (world_with_marker 102)) /\
  decodePhoto (decoding (Some (mkQRCode "hello"))) large_size
      (world_with_marker 102)
    = (Ok "hello",
       mkWorld (table (world_with_marker 102)) ∅
         [DownloadFile "large"; JimpRead tmp_path; JsQR some_bitmap;
          UnlinkSync tmp_path]).
Proof.
  split; [reflexivity |]. split; [set_solver |].
  apply (decodePhoto_round_trip (decoding (Some (mkQRCode "hello")))
           large_size (world_with_marker 102) tmp_path some_bitmap
           (mkQRCode "hello"));
    [reflexivity | set_solver | reflexivity | reflexivity].
Defined.

(** X13: when the download is rejected, both variants of [decodePhoto]
    throw that rejection after the one call; no file is created and
    nothing is read, decoded or removed. *)
Theorem decodePhoto_download_rejected env photo w :
  downloadFile_path env w (file_id photo) = None ->
  let failed :=
    (Throw (Rejected (DownloadFile (file_id photo))) : Result string,
     mkWorld (table w) (tmpdir w) (calls w ++ [DownloadFile (file_id photo)]))
  in
  decodePhoto env photo w = failed /\
  Part000.decodePhoto env photo w = failed.
Proof.
  intros Hdl. unfold decodePhoto, Part000.decodePhoto.
  by rewrite !bind_run, bot_downloadFile_run, Hdl.
Qed.

Lemma decodePhoto_download_rejected_witness :
  downloadFile_path (collaborators None None None ∅) (world_with_marker 102)
    (file_id large_size) = None /\
  decodePhoto (collaborators None None None ∅) large_size
      (world_with_marker 102)
    = (Throw (Rejected (DownloadFile "large")),
       mkWorld (table (world_with_marker 102)) ∅ [DownloadFile "large"]).
Proof.
  split; [reflexivity |].
  apply (decodePhoto_download_rejected (collaborators None None None ∅)
           large_size (world_with_marker 102)).
  reflexivity.
Defined.

(** X14: where the two variants of [decodePhoto] part.  When jsQR finds no
    code both throw a TypeError, but the earlier variant has removed the
    file by then while the current one still has it. *)
Theorem decodePhoto_no_code_variants env photo w path bitmap :
  downloadFile_path env w (file_id photo) = Some path ->
  (forall w', Jimp_bitmap env w' path = Some bitmap) ->
  jsQR_result env bitmap = None ->
  (fst (decodePhoto env photo w) = Throw TypeError /\
   path ∈ tmpdir (snd (decodePhoto env photo w))) /\
  (fst (Part000.decodePhoto env photo w) = Throw TypeError /\
   path ∉ tmpdir (snd (Part000.decodePhoto env photo w))).
Proof.
  intros Hdl Hread Hqr. unfold decodePhoto, Part000.decodePhoto. split.
  - rewrite bind_run, bot_downloadFile_run, Hdl.
    rewrite bind_run, Jimp_read_run, Hread.
    rewrite bind_run, decodeBitmap_run, Hqr. cbn.
    split; [done |]. apply elem_of_union. left. by apply elem_of_singleton.
  - rewrite bind_run, bot_downloadFile_run, Hdl.
    rewrite bind_run, Jimp_read_run, Hread.
    rewrite bind_run, jsQR_run, Hqr.
    rewrite bind_run, fs_unlinkSync_run. cbn [tmpdir table calls].
    rewrite bool_decide_eq_true_2
      by (apply elem_of_union; left; by apply elem_of_singleton).
    cbn. split; [done |]. rewrite elem_of_difference, elem_of_singleton.
    tauto.
Qed.

Lemma decodePhoto_no_code_variants_witness :
  downloadFile_path (decoding None) (world_with_marker 102)
    (file_id large_size) = Some tmp_path /\
  jsQR_result (decoding None) some_bitmap = None /\
  (fst (decodePhoto (decoding None) large_size (world_with_marker 102))
     = Throw TypeError /\
   tmp_path ∈ tmpdir (snd (decodePhoto (decoding None) large_size
                             (world_with_marker 102)))) /\
  (fst (Part000.decodePhoto (decoding None) large_size (world_with_marker 102))
     = Throw TypeError /\
   tmp_path ∉ tmpdir (snd (Part000.decodePhoto (decoding None) large_size
                             (world_with_marker 102)))).
Proof.
  split; [reflexivity |]. split; [reflexivity |].
  apply (decodePhoto_no_code_variants (decoding None) large_size
           (world_with_marker 102) tmp_path some_bitmap);
    reflexivity.
Defined.

(** X15: apart from that case the two variants are one function: when jsQR
    finds a code in every bitmap it is given, they give the same result
    and leave the same world. *)
Theorem decodePhoto_variants_agree env photo w :
  (forall bitmap, jsQR_result env bitmap <> None) ->
  Part000.decodePhoto env photo w = decodePhoto env photo w.
Proof.
  intros Hqr. unfold decodePhoto, Part000.decodePhoto.
  rewrite !bind_run, bot_downloadFile_run.
  destruct (downloadFile_path env w (file_id photo)) as [path |]; [| done].
  rewrite !bind_run, Jimp_read_run.
  destruct (Jimp_bitmap env _ path) as [bitmap |]; [| done].
  rewrite !bind_run, decodeBitmap_run, jsQR_run.
  destruct (jsQR_result env bitmap) as [code |] eqn:Hcode;
    [| by destruct (Hqr bitmap)].
  rewrite !bind_run, fs_unlinkSync_run. case_bool_decide; [| done].
  cbn. by rewrite or_blank_id.
Qed.

Lemma decodePhoto_variants_agree_witness :
  Part000.decodePhoto (decoding (Some (mkQRCode "hello"))) large_size
      (world_with_marker 102)
    = decodePhoto (decoding (Some (mkQRCode "hello"))) large_size
        (world_with_marker 102).
Proof.
  apply (decodePhoto_variants_agree (decoding (Some (mkQRCode "hello")))
           large_size (world_with_marker 102)).
  intros bitmap. discriminate.
Defined.

(** X16: whatever happens, [decodePhoto] removes no file but the one that
    was downloaded: the other files of the temporary directory are
    still there afterwards, in both variants. *)
Theorem decodePhoto_keeps_other_files env photo w file :
  file ∈ tmpdir w ->
  downloadFile_path env w (file_id photo) <> Some file ->
  file ∈ tmpdir (snd (decodePhoto env photo w)) /\
  file ∈ tmpdir (snd (Part000.decodePhoto env photo w)).
Proof.
  intros Hfile Hother. unfold decodePhoto, Part000.decodePhoto.
  rewrite !bind_run, bot_downloadFile_run.
  destruct (downloadFile_path env w (file_id photo)) as [path |]; [| done].
  assert (file <> path) as Hne by congruence.
  assert (file ∈ ({[path]} ∪ tmpdir w : gset string)) as Hin
    by (apply elem_of_union; by right).
  assert (file ∈ (({[path]} ∪ tmpdir w) ∖ {[path]} : gset string)) as Hkept.
  { rewrite elem_of_difference, elem_of_singleton. tauto. }
  rewrite !bind_run, Jimp_read_run.
  destruct (Jimp_bitmap env _ path) as [bitmap |]; [| done].
  rewrite !bind_run, decodeBitmap_run, jsQR_run.
  rewrite !bind_run, !fs_unlinkSync_run. cbn [tmpdir table calls].
  destruct (jsQR_result env bitmap) as [code |];
    rewrite ?bind_run, ?fs_unlinkSync_run; cbn [tmpdir table calls];
    try case_bool_decide; cbn; by split.
Qed.

Lemma decodePhoto_keeps_other_files_witness :
  "/tmp/other.jpg" ∈ tmpdir world_with_other_file /\
  downloadFile_path (decoding None) world_with_other_file (file_id large_size)
    <> Some "/tmp/other.jpg" /\
  "/tmp/other.jpg"
    ∈ tmpdir (snd (decodePhoto (decoding None) large_size
                     world_with_other_file)) /\
  "/tmp/other.jpg"
    ∈ tmpdir (snd (Part000.decodePhoto (decoding None) large_size
                     world_with_other_file)).
Proof.
  split; [vm_compute; reflexivity |]. split; [discriminate |].
  apply (decodePhoto_keeps_other_files (decoding None) large_size
           world_with_other_file "/tmp/other.jpg");
    [vm_compute; reflexivity | discriminate].
Defined.

(** ** More on the photo handler *)

Lemma decodePhoto_first_call env photo w :
  exists rest,
    calls (snd (decodePhoto env photo w)) =
      calls w ++ DownloadFile (file_id photo) :: rest.
Proof.
  unfold decodePhoto. rewrite bind_run, bot_downloadFile_run.
  destruct (downloadFile_path env w (file_id photo)) as [path |];
    [| by exists []].
  match goal with
  | |- context [mbind (M := M) ?k (Jimp_read env path) ?w1] =>
      assert (confined (handler_call 0) (Jimp_read env path ≫= k)) as Hrest
  end.
  { apply confined_bind; [by apply confined_Jimp_read |]. intros bitmap.
    apply confined_bind; [apply confined_decodeBitmap |]. intros result.
    apply confined_bind; [by apply confined_unlinkSync |]. intros _.
    apply confined_ret. }
  destruct (Hrest (mkWorld (table w) ({[path]} ∪ tmpdir w)
                     (calls w ++ [DownloadFile (file_id photo)])))
    as (_ & new & Hcalls & _).
  exists new. rewrite Hcalls. cbn. by rewrite <- app_assoc.
Qed.

Lemma handlePhotoMessage_accepted env msg w photo :
  last_photo msg = Some photo ->
  js_gt (width photo) (MAX_PHOTO_SIZE env)
    || js_gt (height photo) (MAX_PHOTO_SIZE env) = false ->
  sendMessage_resolves env w (chat_id (chat msg)) decodingMessage markdown
    = true ->
  exists rest,
    calls (snd (handlePhotoMessage env msg w)) =
      calls w ++
      [SendMessage (chat_id (chat msg)) decodingMessage markdown;
       DownloadFile (file_id photo)] ++ rest.
Proof.
  intros Hlast Hsize Hsend. unfold handlePhotoMessage.
  rewrite Hlast, Hsize. unfold sendMarkdownMessage at 1.
  rewrite bind_run, bot_sendMessage_run. cbn [reply_to_message_id no_options].
  fold markdown. rewrite Hsend, bind_run.
  set (w1 := mkWorld _ _ _).
  destruct (decodePhoto_first_call env photo w1) as (rest & Hdecode).
  destruct (decodePhoto env photo w1) as [[data | e] w2]; cbn [snd] in *.
  - destruct (confined_replyDecoded env msg data w2) as (_ & new & Hreply & _).
    exists (rest ++ new). rewrite Hreply, Hdecode. subst w1. cbn.
    by rewrite <- !app_assoc.
  - exists rest. rewrite Hdecode. subst w1. cbn. by rewrite <- !app_assoc.
Qed.

(** X17: the limit is inclusive.  A photo whose last size is at most the
    limit in both dimensions, the limit itself included, is not turned
    away: once the notice is delivered the next call is the download of
    that size. *)
Theorem handlePhotoMessage_at_limit env msg w photo limit :
  last_photo msg = Some photo ->
  MAX_PHOTO_SIZE env = Some limit ->
  width photo <= limit ->
  height photo <= limit ->
  sendMessage_resolves env w (chat_id (chat msg)) decodingMessage markdown
    = true ->
  exists rest,
    calls (snd (handlePhotoMessage env msg w)) =
      calls w ++
      [SendMessage (chat_id (chat msg)) decodingMessage markdown;
       DownloadFile (file_id photo)] ++ rest.
Proof.
  intros Hlast Hlimit Hwidth Hheight Hsend.
  apply handlePhotoMessage_accepted; [done | | done].
  rewrite Hlimit. cbn [js_gt]. by rewrite !bool_decide_eq_false_2 by lia.
Qed.

Lemma handlePhotoMessage_at_limit_witness :
  last_photo limit_photo_message = Some limit_size /\
  MAX_PHOTO_SIZE (decoding None) = Some 1280 /\
  width limit_size <= 1280 /\
  height limit_size <= 1280 /\
  exists rest,
    calls (snd (handlePhotoMessage (decoding None) limit_photo_message
                  (world_with_marker 101))) =
      [SendMessage 7 decodingMessage markdown; DownloadFile "limit"] ++ rest.
Proof.
  split; [reflexivity |]. split; [reflexivity |].
  split; [reflexivity |]. split; [reflexivity |].
  apply (handlePhotoMessage_at_limit (decoding None) limit_photo_message
           (world_with_marker 101) limit_size 1280);
    [reflexivity | reflexivity | reflexivity | reflexivity | reflexivity].
Defined.

(** X18: without a usable [MAX_PHOTO_SIZE] the size check turns nothing
    away: the limit is then [NaN], both comparisons are false, and a
    photo of any size is downloaded. *)
Theorem handlePhotoMessage_without_limit env msg w photo :
  last_photo msg = Some photo ->
  MAX_PHOTO_SIZE env = None ->
  sendMessage_resolves env w (chat_id (chat msg)) decodingMessage markdown
    = true ->
  exists rest,
    calls (snd (handlePhotoMessage env msg w)) =
      calls w ++
      [SendMessage (chat_id (chat msg)) decodingMessage markdown;
       DownloadFile (file_id photo)] ++ rest.
Proof.
  intros Hlast Hlimit Hsend.
  apply handlePhotoMessage_accepted; [done | | done]. by rewrite Hlimit.
Qed.

Lemma handlePhotoMessage_without_limit_witness :
  last_photo huge_photo_message = Some huge_size /\
  MAX_PHOTO_SIZE unconfigured = None /\
  exists rest,
    calls (snd (handlePhotoMessage unconfigured huge_photo_message
                  (world_with_marker 101))) =
      [SendMessage 7 decodingMessage markdown; DownloadFile "huge"] ++ rest.
Proof.
  split; [reflexivity |]. split; [reflexivity |].
  apply (handlePhotoMessage_without_limit unconfigured huge_photo_message
           (world_with_marker 101) huge_size);
    [reflexivity | reflexivity | reflexivity].
Defined.

(** X19: the could-not-be-decoded reply.  When the photo is within the
    limit, the notice is delivered and jsQR returns a code whose data is
    the empty string, the handler removes the file and then sends that
    one message, as a reply to the incoming message; there is no second
    message. *)
Theorem handlePhotoMessage_blank_data env msg w photo path bitmap code :
  last_photo msg = Some photo ->
  js_gt (width photo) (MAX_PHOTO_SIZE env)
    || js_gt (height photo) (MAX_PHOTO_SIZE env) = false ->
  sendMessage_resolves env w (chat_id (chat msg)) decodingMessage markdown
    = true ->
  (forall w', downloadFile_path env w' (file_id photo) = Some path) ->
  (forall w', Jimp_bitmap env w' path = Some bitmap) ->
  jsQR_result env bitmap = Some code ->
  data code = "" ->
  calls (snd (handlePhotoMessage env msg w)) =
    calls w ++
    [SendMessage (chat_id (chat msg)) decodingMessage markdown;
     DownloadFile (file_id photo); JimpRead path; JsQR bitmap;
     UnlinkSync path;
     SendMessage (chat_id (chat msg)) emptyMessage
       (markdown_reply (message_id msg))].
Proof.
  intros Hlast Hsize Hsend Hdl Hread Hqr Hdata.
  destruct (decodePhoto_removes_file_on_success env photo
              (mkWorld (table w) (tmpdir w)
                 (calls w ++ [SendMessage (chat_id (chat msg)) decodingMessage
                                markdown]))
              path bitmap code (Hdl _) Hread Hqr) as [Hresult _].
  rewrite or_blank_id, Hdata in Hresult.
  destruct (decodePhoto env photo _) as [r w'] eqn:Hdecode.
  cbn [fst] in Hresult. subst r.
  rewrite (handlePhotoMessage_within_limit env msg photo w "" w') by done.
  rewrite replyDecoded_blank.
  assert (calls w' = calls (snd (decodePhoto env photo
            (mkWorld (table w) (tmpdir w)
               (calls w ++ [SendMessage (chat_id (chat msg)) decodingMessage
                              markdown]))))) as -> by (by rewrite Hdecode).
  unfold decodePhoto.
  rewrite bind_run, bot_downloadFile_run, Hdl.
  rewrite bind_run, Jimp_read_run, Hread.
  rewrite bind_run, decodeBitmap_run, Hqr.
  rewrite bind_run, fs_unlinkSync_run. cbn [tmpdir table calls].
  rewrite bool_decide_eq_true_2
    by (apply elem_of_union; left; by apply elem_of_singleton).
  cbn. by rewrite <- !app_assoc.
Qed.

Lemma handlePhotoMessage_blank_data_witness :
  last_photo photo_message = Some large_size /\
  jsQR_result (decoding (Some (mkQRCode ""))) some_bitmap
    = Some (mkQRCode "") /\
  calls (snd (handlePhotoMessage (decoding (Some (mkQRCode ""))) photo_message
                (world_with_marker 102))) =
    [SendMessage 7 decodingMessage markdown;
     DownloadFile "large"; JimpRead tmp_path; JsQR some_bitmap;
     UnlinkSync tmp_path;
     SendMessage 7 emptyMessage (markdown_reply 6)].
Proof.
  split; [reflexivity |]. split; [reflexivity |].
  apply (handlePhotoMessage_blank_data (decoding (Some (mkQRCode "")))
           photo_message (world_with_marker 102) large_size tmp_path
           some_bitmap (mkQRCode ""));
    reflexivity.
Defined.

(** ** More on the contact properties *)

Lemma forEach_assign_not_blank entries init result :
  trim init <> "" ->
  forEach_assign entries init = Ok result ->
  trim result <> "".
Proof.
  revert init.
  induction entries as [| entry entries IH]; intros init Hinit;
    cbn [forEach_assign].
  - by intros [= <-].
  - destruct (value entry) as [s | items]; [| done].
    apply IH. by case_bool_decide.
Qed.

(** X20: a contact that is sent never has a blank name or a blank
    telephone: whenever the extractor returns, both properties have a
    non-empty trimmed value. *)
Theorem extractProperties_never_blank env vcard properties :
  extractProperties env vcard = Ok properties ->
  trim (name properties) <> "" /\
  trim (telephone properties) <> "".
Proof.
  assert (trim "No name found" <> "") as Hname by (by vm_compute).
  assert (trim "123456789" <> "") as Htel by (by vm_compute).
  unfold extractProperties.
  set (name0 := "No name found") in *. set (telephone0 := "123456789") in *.
  assert (exists n t,
            match vCard_parse env vcard !! "fn" with
            | Some fn => forEach_assign fn name0
            | None => Ok name0
            end = n /\
            match vCard_parse env vcard !! "tel" with
            | Some tel => forEach_assign tel telephone0
            | None => Ok telephone0
            end = t) as (n & t & Hn & Ht) by eauto.
  rewrite Hn, Ht.
  destruct n as [n | e]; [| discriminate].
  destruct t as [t | e]; [| discriminate].
  intros [= <-]. cbn [name telephone]. split.
  - destruct (vCard_parse env vcard !! "fn") as [fn |].
    + exact (forEach_assign_not_blank fn name0 n Hname Hn).
    + injection Hn as <-. exact Hname.
  - destruct (vCard_parse env vcard !! "tel") as [tel |].
    + exact (forEach_assign_not_blank tel telephone0 t Htel Ht).
    + injection Ht as <-. exact Htel.
Qed.

Lemma extractProperties_never_blank_witness :
  extractProperties decoding_contact contact_text
    = Ok (mkContactProperties "Ada Lovelace" "+44 20 7946 0000") /\
  trim "Ada Lovelace" <> "" /\
  trim "+44 20 7946 0000" <> "".
Proof.
  split; [reflexivity |].
  apply (extractProperties_never_blank decoding_contact contact_text
           (mkContactProperties "Ada Lovelace" "+44 20 7946 0000")).
  reflexivity.
Defined.

Lemma forEach_assign_all_text entries init :
  match forEach_assign entries init with
  | Ok _ => all_text (Some entries) = true
  | Throw e => e = TypeError /\ all_text (Some entries) = false
  end.
Proof.
  revert init. induction entries as [| entry entries IH]; intros init; [done |].
  cbn [forEach_assign all_text forallb].
  destruct (value entry) as [s | items]; [| done]. apply IH.
Qed.

(** X28: the extractor returns exactly when every entry of [fn] and of
    [tel] has a string for its value; when one of them has an array, it
    throws a TypeError, whatever the other entries hold. *)
Theorem extractProperties_returns_iff_text env vcard :
  match extractProperties env vcard with
  | Ok _ =>
      all_text (vCard_parse env vcard !! "fn")
      && all_text (vCard_parse env vcard !! "tel") = true
  | Throw e =>
      e = TypeError /\
      all_text (vCard_parse env vcard !! "fn")
      && all_text (vCard_parse env vcard !! "tel") = false
  end.
Proof.
  unfold extractProperties.
  destruct (vCard_parse env vcard !! "fn") as [fn |],
    (vCard_parse env vcard !! "tel") as [tel |]; cbn.
  - pose proof (forEach_assign_all_text fn "No name found") as Hfn.
    pose proof (forEach_assign_all_text tel "123456789") as Htel.
    cbn [all_text] in Hfn, Htel.
    destruct (forEach_assign fn _); cbn; [| by destruct Hfn as [-> ->]].
    destruct (forEach_assign tel _); cbn; rewrite Hfn; [done |].
    by destruct Htel as [-> ->].
  - pose proof (forEach_assign_all_text fn "No name found") as Hfn.
    cbn [all_text] in Hfn.
    destruct (forEach_assign fn _); cbn; [by rewrite Hfn |].
    by destruct Hfn as [-> ->].
  - pose proof (forEach_assign_all_text tel "123456789") as Htel.
    cbn [all_text] in Htel.
    destruct (forEach_assign tel _); cbn; [done |].
    by destruct Htel as [-> ->].
  - done.
Qed.

(** ** The calls of an invocation *)

Lemma confined_weaken {A} (P Q : Call -> bool) (m : M A) :
  (forall c, P c = true -> Q c = true) -> confined P m -> confined Q m.
Proof.
  intros HPQ Hm w. destruct (Hm w) as (Htable & new & Hcalls & Hnew).
  split; [done |]. exists new. split; [done |].
  apply forallb_forall. intros c Hc. apply HPQ.
  by apply (proj1 (forallb_forall P new) Hnew).
Qed.

Lemma handler_call_invocation chatId c :
  handler_call chatId c = true -> invocation_call chatId c = true.
Proof.
  destruct c; cbn; try done.
  intros [H _]%andb_prop. done.
Qed.

Lemma handler_call_storeless chatId c :
  handler_call chatId c = true -> storeless_call chatId c = true.
Proof.
  destruct c; cbn; try done.
  intros [H _]%andb_prop. done.
Qed.

Lemma invocation_call_error chatId :
  invocation_call chatId (SendMessage chatId errorMessage no_options) = true.
Proof. cbn. by apply bool_decide_eq_true. Qed.

Lemma checkAlreadyHandled_calls env current w :
  tmpdir (snd (checkAlreadyHandled env current w)) = tmpdir w /\
  exists new,
    calls (snd (checkAlreadyHandled env current w)) = calls w ++ new /\
    forall chatId, forallb (invocation_call chatId) new = true.
Proof.
  unfold checkAlreadyHandled, db_get, db_update. run_js.
  destruct (db_get_resolves env w latest_update_id); run_js;
    [| split; [done |]; by exists [DbGet latest_update_id]].
  destruct (table w !! latest_update_id) as [item |]; run_js;
    [| split; [done |]; by exists [DbGet latest_update_id]].
  destruct (js_lt (item !! latest_update_id) current); run_js;
    [| split; [done |]; by exists [DbGet latest_update_id]].
  destruct (db_update_resolves env _ _ _ _); run_js;
    (split; [done |]);
    exists [DbGet latest_update_id;
            DbUpdate latest_update_id latest_update_id current];
    by rewrite <- app_assoc.
Qed.

Lemma forallb_handler_invocation chatId new :
  forallb (handler_call chatId) new = true ->
  forallb (invocation_call chatId) new = true.
Proof.
  intros Hnew. apply forallb_forall. intros c Hc.
  apply handler_call_invocation.
  by apply (proj1 (forallb_forall _ new) Hnew).
Qed.

(** X21: an invocation for a message of some chat talks to that chat only
    and to the marker record only.  Whatever the collaborators do, every
    message and every contact it sends goes to the chat of the incoming
    message, and every request to the store is for [latest_update_id]. *)
Theorem message_calls env event w update msg :
  JSON_parse env (body event) = Some update ->
  message_of update = Some msg ->
  exists new,
    calls (snd (message env event w)) = calls w ++ new /\
    forallb (invocation_call (chat_id (chat msg))) new = true.
Proof.
  intros Hparse Hmsg. rewrite (message_world env event w update msg) by done.
  destruct (checkAlreadyHandled_calls env (update_id update) w)
    as (_ & new1 & Hcalls1 & Hnew1).
  specialize (Hnew1 (chat_id (chat msg))).
  pose proof (invocation_call_error (chat_id (chat msg))) as Herror.
  destruct (checkAlreadyHandled env (update_id update) w)
    as [[[] | e] w1]; cbn [snd] in *.
  - rewrite !sendErrorMessage_run.
    destruct (sendMessage_resolves env w1 _ _ _); cbn [snd calls];
      rewrite Hcalls1, <- ?app_assoc; eexists; (split; [done |]);
      rewrite ?forallb_app, Hnew1; cbn [forallb]; by rewrite ?Herror.
  - destruct (confined_handleIncomingMessage env msg w1)
      as (_ & new2 & Hcalls2 & Hnew2).
    apply forallb_handler_invocation in Hnew2.
    destruct (handleIncomingMessage env msg w1) as [[] w2]; cbn [snd] in *;
      rewrite ?sendErrorMessage_run; cbn [snd calls];
      rewrite Hcalls2, Hcalls1, <- ?app_assoc; eexists; (split; [done |]);
      rewrite ?forallb_app, Hnew1, Hnew2; cbn [forallb]; by rewrite ?Herror.
  - rewrite sendErrorMessage_run. cbn [snd calls].
    rewrite Hcalls1, <- ?app_assoc. eexists. split; [done |].
    rewrite ?forallb_app, Hnew1. cbn [forallb]. by rewrite ?Herror.
Qed.

Lemma message_calls_witness :
  JSON_parse decoding_contact (body (mkEvent photo_body)) = Some photo_update /\
  message_of photo_update = Some photo_message /\
  exists new,
    calls (snd (message decoding_contact (mkEvent photo_body)
                  (world_with_marker 101))) = new /\
    forallb (invocation_call 7) new = true.
Proof.
  split; [reflexivity |]. split; [reflexivity |].
  apply (message_calls decoding_contact (mkEvent photo_body)
           (world_with_marker 101) photo_update photo_message);
    reflexivity.
Defined.

(** ** The earlier variant *)

Lemma Part000_handleTextMessage_run env msg w :
  Part000.handleTextMessage env msg w =
    match text msg with
    | Some t =>
        match early_command_replies t with
        | reply :: _ =>
            sendMarkdownMessage env (chat_id (chat msg)) reply no_options w
        | [] => (Ok tt, w)
        end
    | None => (Ok tt, w)
    end.
Proof.
  unfold Part000.handleTextMessage, early_command_replies, command_replies.
  destruct (text msg) as [t |]; [| done].
  destruct (decide (t = "/start")) as [-> | Hstart]; [done |].
  destruct (decide (t = "/about")) as [-> | Habout]; [done |].
  rewrite (bool_decide_eq_false_2 _ Hstart), (bool_decide_eq_false_2 _ Habout).
  assert ((if bool_decide (t = "/app") then []
           else if bool_decide (t = "/app") then [appMessage] else [])
          = ([] : list string)) as -> by (by case_bool_decide).
  repeat case_match; subst; done.
Qed.

(** X22: the text handlers of the two variants differ in [/app] alone.  On
    any other text they do the same; on [/app] the earlier one does
    nothing. *)
Theorem handleTextMessage_variants env msg w :
  (text msg <> Some "/app" ->
   Part000.handleTextMessage env msg w = handleTextMessage env msg w) /\
  (text msg = Some "/app" ->
   Part000.handleTextMessage env msg w = (Ok tt, w)).
Proof.
  rewrite Part000_handleTextMessage_run, handleTextMessage_run.
  unfold early_command_replies. split.
  - intros Happ. destruct (text msg) as [t |]; [| done].
    rewrite bool_decide_eq_false_2; [done | congruence].
  - by intros ->.
Qed.

Lemma handleTextMessage_variants_witness :
  text text_and_photo_message <> Some "/app" /\
  Part000.handleTextMessage (decoding None) text_and_photo_message
      (world_with_marker 101)
    = handleTextMessage (decoding None) text_and_photo_message
        (world_with_marker 101) /\
  text app_message = Some "/app" /\
  Part000.handleTextMessage (decoding None) app_message (world_with_marker 101)
    = (Ok tt, world_with_marker 101).
Proof.
  split; [discriminate |]. split.
  - apply (proj1 (handleTextMessage_variants (decoding None)
                    text_and_photo_message (world_with_marker 101))).
    discriminate.
  - split; [reflexivity |].
    apply (proj2 (handleTextMessage_variants (decoding None) app_message
                    (world_with_marker 101))).
    reflexivity.
Defined.

Lemma confined_Part000_handleIncomingMessage env msg :
  confined (handler_call (chat_id (chat msg)))
    (Part000.handleIncomingMessage env msg).
Proof.
  unfold Part000.handleIncomingMessage.
  destruct (truthy_string (text msg)).
  { intros w. rewrite Part000_handleTextMessage_run.
    destruct (text msg) as [t |]; [| apply (confined_ret _ tt)].
    destruct (early_command_replies t);
      [apply (confined_ret _ tt) | apply confined_sendMarkdownMessage]. }
  destruct (photo msg) as [sizes |]; [| apply confined_ret].
  destruct (0 <? length sizes)%nat; [| apply confined_ret].
  unfold Part000.handlePhotoMessage.
  destruct (last_photo msg) as [photo |]; [| apply confined_throw].
  destruct (_ || _); [apply confined_sendMarkdownMessage |].
  apply confined_bind; [apply confined_sendMarkdownMessage |]. intros _.
  apply confined_bind; [apply confined_Part000_decodePhoto |]. intros data.
  apply confined_replyDecoded.
Qed.

Lemma forallb_handler_storeless chatId new :
  forallb (handler_call chatId) new = true ->
  forallb (storeless_call chatId) new = true.
Proof.
  intros Hnew. apply forallb_forall. intros c Hc.
  apply handler_call_storeless.
  by apply (proj1 (forallb_forall _ new) Hnew).
Qed.

(** X23: the earlier variant has no gate.  Whenever the body parses to a
    message, it answers 200 with the echo of the event, leaves the table
    as it is, and makes no request to the store; what it sends goes to
    the chat of the incoming message. *)
Theorem Part000_message_storeless env stringify event w update msg :
  JSON_parse env (body event) = Some update ->
  message_of update = Some msg ->
  fst (Part000.message env stringify event w)
    = Ok (mkResponse 200 (stringify event)) /\
  table (snd (Part000.message env stringify event w)) = table w /\
  exists new,
    calls (snd (Part000.message env stringify event w)) = calls w ++ new /\
    forallb (storeless_call (chat_id (chat msg))) new = true.
Proof.
  intros Hparse Hmsg. unfold Part000.message. rewrite Hparse, Hmsg.
  unfold finally_return, try_catch. cbn [fst snd]. split; [done |].
  destruct (confined_Part000_handleIncomingMessage env msg w)
    as (Htable & new & Hcalls & Hnew).
  apply forallb_handler_storeless in Hnew.
  destruct (Part000.handleIncomingMessage env msg w) as [[] w1];
    cbn [snd] in *.
  - split; [done |]. by exists new.
  - rewrite sendErrorMessage_run. cbn [snd table calls]. split; [done |].
    exists (new ++ [SendMessage (chat_id (chat msg)) errorMessage no_options]).
    rewrite Hcalls, <- app_assoc. split; [done |].
    rewrite forallb_app, Hnew. cbn. by rewrite bool_decide_eq_true_2.
Qed.

Lemma Part000_message_storeless_witness :
  JSON_parse (decoding None) (body (mkEvent photo_body)) = Some photo_update /\
  message_of photo_update = Some photo_message /\
  fst (Part000.message (decoding None) body (mkEvent photo_body)
         world_without_marker)
    = Ok (mkResponse 200 photo_body) /\
  table (snd (Part000.message (decoding None) body (mkEvent photo_body)
                world_without_marker)) = ∅ /\
  exists new,
    calls (snd (Part000.message (decoding None) body (mkEvent photo_body)
                  world_without_marker)) = new /\
    forallb (storeless_call 7) new = true.
Proof.
  split; [reflexivity |]. split; [reflexivity |].
  apply (Part000_message_storeless (decoding None) body (mkEvent photo_body)
           world_without_marker photo_update photo_message);
    reflexivity.
Defined.

Lemma Part000_message_text env stringify event w update msg t :
  bot_resolves env ->
  JSON_parse env (body event) = Some update ->
  message_of update = Some msg ->
  text msg = Some t ->
  t <> "" ->
  snd (Part000.message env stringify event w) =
    mkWorld (table w) (tmpdir w)
      (calls w ++
       ((fun reply => SendMessage (chat_id (chat msg)) reply markdown) <$>
        early_command_replies t)).
Proof.
  intros [Hsend _] Hparse Hmsg Htext Ht.
  unfold Part000.message. rewrite Hparse, Hmsg.
  unfold finally_return, try_catch, Part000.handleIncomingMessage.
  cbn [snd]. rewrite Htext. cbn [truthy_string].
  rewrite bool_decide_eq_false_2 by done. cbn [negb].
  rewrite Part000_handleTextMessage_run, Htext.
  destruct (early_command_replies t) as [| reply replies] eqn:Hreplies.
  - cbn. rewrite app_nil_r. by destruct w.
  - assert (replies = []) as ->.
    { revert Hreplies. unfold early_command_replies, command_replies.
      repeat case_bool_decide; congruence. }
    unfold sendMarkdownMessage. by rewrite bot_sendMessage_run, Hsend.
Qed.

(** X24: so the earlier variant answers a redelivery like a first
    delivery.  With the bot client answering, two invocations for the
    same text leave the replies to it twice in the log, where the
    current variant would have met the second with the gate. *)
Theorem Part000_message_redelivered env stringify event w update msg t :
  bot_resolves env ->
  JSON_parse env (body event) = Some update ->
  message_of update = Some msg ->
  text msg = Some t ->
  t <> "" ->
  let replies :=
    (fun reply => SendMessage (chat_id (chat msg)) reply markdown) <$>
    early_command_replies t in
  snd (Part000.message env stringify event
         (snd (Part000.message env stringify event w))) =
    mkWorld (table w) (tmpdir w) (calls w ++ replies ++ replies).
Proof.
  intros Hbot Hparse Hmsg Htext Ht replies.
  rewrite !(Part000_message_text env stringify event _ update msg t) by done.
  cbn [table tmpdir calls]. fold replies. by rewrite <- app_assoc.
Qed.

Lemma Part000_message_redelivered_witness :
  JSON_parse (decoding None) (body (mkEvent start_body)) = Some start_update /\
  snd (Part000.message (decoding None) body (mkEvent start_body)
         (snd (Part000.message (decoding None) body (mkEvent start_body)
                 world_without_marker))) =
    mkWorld ∅ ∅
      [SendMessage 7 startMessage markdown;
       SendMessage 7 startMessage markdown].
Proof.
  split; [reflexivity |].
  apply (Part000_message_redelivered (decoding None) body
           (mkEvent start_body) world_without_marker start_update
           (mkMessage 5 (mkChat 7) (Some "/start") None) "/start");
    [by split | reflexivity | reflexivity | reflexivity | discriminate].
Defined.
